(** * Prompt_Intel: the rule-based text-analysis core

    A shallow embedding of the deterministic services of the backend
    (intentDetector.js, constraintDetector.js, scoringEngine.js,
    warningGenerator.js, driftDetector.js) together with the properties
    their specification states about them.

    Texts are JavaScript strings whose code units are all below 256; they
    are represented by [string], one [ascii] per code unit.  On that range
    every primitive used by the services ([toLowerCase], [includes],
    [split], the regular expressions) is modelled exactly. *)

From Stdlib Require Import ZArith NArith Bool List Lia.
From Stdlib Require Import Strings.Ascii Strings.String Numbers.DecimalString.
From Stdlib Require Import Numbers.Cyclic.Int63.Uint63.
From Stdlib Require Import Floats.PrimFloat Floats.SpecFloat Floats.FloatOps.
From Stdlib Require Import Floats.FloatAxioms.
From stdpp Require Import base gmap strings list.

Import ListNotations.
Local Open Scope string_scope.
Local Open Scope bool_scope.

(** ** JavaScript string primitives *)

Module JS.

Definition code (c : ascii) : N := N_of_ascii c.

Definition between (lo hi : N) (c : ascii) : bool :=
  ((lo <=? code c) && (code c <=? hi))%N.

(** [String.prototype.toLowerCase] on one code unit below 256: the letters
    A-Z and the Latin-1 capitals U+00C0-U+00DE (without the multiplication
    sign U+00D7) move up by 32, every other code unit is unchanged. *)
Definition toLowerChar (c : ascii) : ascii :=
  if between 65 90 c || (between 192 222 c && negb (code c =? 215)%N)
  then ascii_of_N (code c + 32) else c.

Fixpoint toLowerCase (s : string) : string :=
  match s with
  | EmptyString => EmptyString
  | String c s' => String (toLowerChar c) (toLowerCase s')
  end.

(** [s.includes(t)]: [t] occurs in [s] as a contiguous substring. *)
Fixpoint includes (s t : string) : bool :=
  String.prefix t s ||
  match s with
  | EmptyString => false
  | String _ s' => includes s' t
  end.

(** [xs.some(p)] *)
Definition some {A} (p : A -> bool) (xs : list A) : bool := existsb p xs.

(** The class [\s] restricted to code units below 256: TAB, LF, VT, FF, CR,
    SPACE and NO-BREAK SPACE. *)
Definition isSpace (c : ascii) : bool :=
  between 9 13 c || (code c =? 32)%N || (code c =? 160)%N.

(** [[0-9]], [[A-Z]], [[a-z]] and the class [\w] = [[A-Za-z0-9_]]. *)
Definition isDigit (c : ascii) : bool := between 48 57 c.
Definition isUpper (c : ascii) : bool := between 65 90 c.
Definition isLower (c : ascii) : bool := between 97 122 c.
Definition isWordChar (c : ascii) : bool :=
  isUpper c || isLower c || isDigit c || (code c =? 95)%N.

(** [s.split(/\s+/)]: the pieces between maximal runs of white space.  A
    leading or trailing run leaves an empty piece at that end, and the
    empty string splits into one empty piece.  [cur] is the piece being
    read and [gap] tells that the previous code unit was white space. *)
Fixpoint split_ws_from (cur : string) (gap : bool) (s : string) : list string :=
  match s with
  | EmptyString => [cur]
  | String c s' =>
      if isSpace c
      then (if gap then split_ws_from cur true s'
            else cur :: split_ws_from EmptyString true s')
      else split_ws_from (cur ++ String c EmptyString) false s'
  end.

Definition split_ws (s : string) : list string :=
  split_ws_from EmptyString false s.

(** *** Regular expressions

    The services build one family of patterns at run time,
    [new RegExp(`\b${escapeRegex(lang)}\b`, 'i')], so the fragment modelled
    is: the assertion [\b], an escaped syntax character, and an ordinary
    pattern character. *)

(** The syntax characters of a pattern; it is also the class
    [[.*+?^${}()|[\]\\]] that [escapeRegex] looks for. *)
Definition syntaxChars : string := "^$\.*+?()[]{}|".

Definition isSyntaxChar (c : ascii) : bool :=
  existsb (Ascii.eqb c) (list_ascii_of_string syntaxChars).

Inductive atom : Type :=
  | WordBoundary
  | Char (c : ascii).

(** [new RegExp(src)]: [None] when [src] leaves the fragment. *)
Fixpoint compile (src : string) : option (list atom) :=
  match src with
  | EmptyString => Some []
  | String c rest =>
      if Ascii.eqb c "\"
      then match rest with
           | EmptyString => None
           | String d rest' =>
               if Ascii.eqb d "b" then option_map (cons WordBoundary) (compile rest')
               else if isSyntaxChar d then option_map (cons (Char d)) (compile rest')
               else None
           end
      else if isSyntaxChar c then None
      else option_map (cons (Char c)) (compile rest)
  end.

(** Canonicalize of a case-insensitive, non-Unicode pattern: the code unit
    of the upper-case form when that is a single code unit, except that a
    code unit of 128 or more never maps below 128.  Below 256: a-z and
    U+00E0-U+00FE (without the division sign U+00F7) move down by 32, the
    micro sign goes to U+039C, y-diaeresis to U+0178, sharp s stays. *)
Definition canonicalize (c : ascii) : N :=
  if between 97 122 c || (between 224 254 c && negb (code c =? 247)%N)
  then (code c - 32)%N
  else if (code c =? 181)%N then 924%N
  else if (code c =? 255)%N then 376%N
  else code c.

Definition isWordOpt (o : option ascii) : bool :=
  match o with Some c => isWordChar c | None => false end.

Definition head (s : string) : option ascii :=
  match s with EmptyString => None | String c _ => Some c end.

(** Match the atoms at the current position; [prev] is the code unit just
    before it.  [\b] holds when exactly one side is a word character. *)
Fixpoint matchHere (ignoreCase : bool) (atoms : list atom)
    (prev : option ascii) (s : string) : bool :=
  match atoms with
  | [] => true
  | WordBoundary :: atoms' =>
      xorb (isWordOpt prev) (isWordOpt (head s)) &&
      matchHere ignoreCase atoms' prev s
  | Char c :: atoms' =>
      match s with
      | EmptyString => false
      | String d s' =>
          (if ignoreCase then (canonicalize d =? canonicalize c)%N
           else Ascii.eqb d c) &&
          matchHere ignoreCase atoms' (Some d) s'
      end
  end.

(** Try every start position from left to right. *)
Fixpoint searchFrom (ignoreCase : bool) (atoms : list atom)
    (prev : option ascii) (s : string) : bool :=
  matchHere ignoreCase atoms prev s ||
  match s with
  | EmptyString => false
  | String d s' => searchFrom ignoreCase atoms (Some d) s'
  end.

(** [re.test(s)] for a pattern without the [g] and [y] flags. *)
Definition test (ignoreCase : bool) (atoms : list atom) (s : string) : bool :=
  searchFrom ignoreCase atoms None s.

(** [str.replace(/[.*+?^${}()|[\]\\]/g, '\\$&')] *)
Fixpoint escapeRegex (str : string) : string :=
  match str with
  | EmptyString => EmptyString
  | String c str' =>
      if isSyntaxChar c then String "\" (String c (escapeRegex str'))
      else String c (escapeRegex str')
  end.

(** [xs.filter(Boolean)] on strings: the empty string is the only falsy one. *)
Definition truthy (s : string) : bool :=
  match s with EmptyString => false | _ => true end.

(** [s.trim()]: white space and line terminators are removed at both ends;
    below 256 these are the code units of [\s]. *)
Fixpoint trimStart (s : string) : string :=
  match s with
  | EmptyString => EmptyString
  | String c s' => if isSpace c then trimStart s' else s
  end.

Fixpoint trimEnd (s : string) : string :=
  match s with
  | EmptyString => EmptyString
  | String c s' =>
      match trimEnd s' with
      | EmptyString => if isSpace c then EmptyString else String c EmptyString
      | t => String c t
      end
  end.

Definition trim (s : string) : string := trimEnd (trimStart s).

End JS.

(** ** services/intentDetector.js *)

Module IntentDetector.

Record Intent := mkIntent {
  detected : string;
  confidence : string;
  source : string
}.

Record Rule := mkRule { intent : string; keywords : list string }.

Definition INTENT_RULES : list Rule :=
  [ mkRule "code_generation"
      ["write"; "code"; "implement"; "function"; "program"; "script";
       "algorithm"; "build"; "create a"; "develop"];
    mkRule "explanation"
      ["explain"; "what is"; "how does"; "describe"; "tell me about";
       "define"; "meaning of"; "why does"];
    mkRule "debugging"
      ["fix"; "debug"; "error"; "bug"; "issue"; "not working"; "wrong";
       "broken"; "failing"];
    mkRule "creative_writing"
      ["write a story"; "poem"; "essay"; "blog"; "article"; "creative";
       "narrative"; "fiction"];
    mkRule "data_analysis"
      ["analyze"; "data"; "chart"; "graph"; "statistics"; "dataset"; "csv";
       "visualize"; "plot"];
    mkRule "summarization"
      ["summarize"; "summary"; "tldr"; "shorten"; "condense"; "brief";
       "key points"];
    mkRule "translation"
      ["translate"; "convert to"; "in spanish"; "in french"; "in hindi";
       "localize"];
    mkRule "comparison"
      ["compare"; "difference between"; "vs"; "versus"; "pros and cons";
       "better"];
    mkRule "instruction"
      ["how to"; "steps to"; "guide"; "tutorial"; "instructions";
       "walk me through"; "show me how"] ].

(** The inner loop of [detectByRules]: does some keyword of the rule occur
    in the lowercased text? *)
Fixpoint scanKeywords (lower : string) (kws : list string) : bool :=
  match kws with
  | [] => false
  | kw :: kws' => if JS.includes lower kw then true else scanKeywords lower kws'
  end.

(** The outer loop: the first rule with a hit returns at once. *)
Fixpoint scanRules (lower : string) (rules : list Rule) : Intent :=
  match rules with
  | [] => mkIntent "general" "low" "rule"
  | rule :: rules' =>
      if scanKeywords lower (keywords rule)
      then mkIntent (intent rule) "medium" "rule"
      else scanRules lower rules'
  end.

Definition detectByRules (text : string) : Intent :=
  let lower := JS.toLowerCase text in
  scanRules lower INTENT_RULES.

(** [detect] only awaits [detectByRules]. *)
Definition detect (text : string) : Intent := detectByRules text.

End IntentDetector.

(** ** services/constraintDetector.js *)

Module ConstraintDetector.

Definition LANGUAGES : list string :=
  ["javascript"; "python"; "java"; "c++"; "c#"; "ruby"; "go"; "rust";
   "typescript"; "php"; "swift"; "kotlin"; "scala"; "r"; "matlab";
   "sql"; "html"; "css"; "bash"; "shell"; "powershell"; "dart"].

Definition LEVELS : list string :=
  ["beginner"; "intermediate"; "advanced"; "expert"; "novice";
   "basic"; "simple"; "complex"; "in-depth"].

Definition OUTPUT_FORMATS : list string :=
  ["code only"; "code + explanation"; "step by step"; "bullet points";
   "table"; "json"; "markdown"; "diagram"; "pseudocode"; "list"].

Definition SCOPE_INDICATORS : list string :=
  ["function"; "class"; "module"; "full app"; "snippet"; "project";
   "component"; "api"; "endpoint"; "page"; "service"; "script"].

Definition EXAMPLE_INDICATORS : list string :=
  ["example"; "for instance"; "e.g."; "such as"; "like this";
   "sample"; "demo"; "illustration"].

(** The object literal [DEFAULT_SUGGESTIONS], one field per constraint. *)
Record Chips := mkChips {
  language : list string;
  level : list string;
  output_format : list string;
  scope : list string;
  examples : list string
}.

Definition DEFAULT_SUGGESTIONS : Chips :=
  mkChips
    ["Python"; "JavaScript"; "Java"; "TypeScript"; "C++"; "Go"]
    ["Beginner"; "Intermediate"; "Advanced"]
    ["Code only"; "Code + Explanation"; "Step-by-step"; "Bullet points"]
    ["Function"; "Class"; "Full module"; "Code snippet"]
    ["Include examples"; "No examples needed"].

(** The value returned by [detectByRules]: the array [gaps] and the object
    [suggestions], whose own properties are the keys of the map. *)
Record Detection := mkDetection {
  gaps : list string;
  suggestions : gmap string (list string)
}.

(** The callback given to [LANGUAGES.some]. *)
Definition languageMatches (lower lang : string) : bool :=
  if (String.length lang <=? 3)%nat
  then match JS.compile ("\b" ++ JS.escapeRegex lang ++ "\b") with
       | Some re => JS.test true re lower
       | None => false
       end
  else JS.includes lower lang.

Definition hasLanguage (lower : string) : bool :=
  JS.some (languageMatches lower) LANGUAGES.
Definition hasLevel (lower : string) : bool :=
  JS.some (JS.includes lower) LEVELS.
Definition hasFormat (lower : string) : bool :=
  JS.some (JS.includes lower) OUTPUT_FORMATS.
Definition hasScope (lower : string) : bool :=
  JS.some (JS.includes lower) SCOPE_INDICATORS.
Definition hasExamples (lower : string) : bool :=
  JS.some (JS.includes lower) EXAMPLE_INDICATORS.

(** One block [if (!has) { gaps.push(name); suggestions[name] = chips; }]. *)
Definition check (has : bool) (name : string) (chips : list string)
    (d : Detection) : Detection :=
  if negb has
  then mkDetection (gaps d ++ [name]) (<[name := chips]> (suggestions d))
  else d.

Definition detectByRules (text : string) : Detection :=
  let lower := JS.toLowerCase text in
  let d := mkDetection [] ∅ in
  let d := check (hasLanguage lower) "language" (language DEFAULT_SUGGESTIONS) d in
  let d := check (hasLevel lower) "level" (level DEFAULT_SUGGESTIONS) d in
  let d := check (hasFormat lower) "output_format" (output_format DEFAULT_SUGGESTIONS) d in
  let d := check (hasScope lower) "scope" (scope DEFAULT_SUGGESTIONS) d in
  let d := check (hasExamples lower) "examples" (examples DEFAULT_SUGGESTIONS) d in
  d.

Definition detect (text : string) : Detection := detectByRules text.

End ConstraintDetector.

(** ** services/scoringEngine.js *)

Module ScoringEngine.

Record ScoreCard := mkScoreCard {
  clarity : Z;
  completeness : Z;
  specificity : Z;
  intentAlignment : Z;
  total : Z
}.

Definition isTerminator (c : ascii) : bool :=
  Ascii.eqb c "." || Ascii.eqb c "!" || Ascii.eqb c "?".

(** [(text.match(/[.!?]+/g) || []).length]: the number of maximal runs of
    sentence terminators; [inRun] tells that the previous code unit was one. *)
Fixpoint countRuns (inRun : bool) (s : string) : nat :=
  match s with
  | EmptyString => 0
  | String c s' =>
      if isTerminator c
      then (if inRun then countRuns true s' else S (countRuns true s'))
      else countRuns false s'
  end.

(** [/\d+/.test(text)] *)
Fixpoint hasDigits (s : string) : bool :=
  match s with
  | EmptyString => false
  | String c s' => JS.isDigit c || hasDigits s'
  end.

(** [/[A-Z]{2,}/.test(text)] *)
Fixpoint hasAcronym (s : string) : bool :=
  match s with
  | String c ((String d _) as s') => (JS.isUpper c && JS.isUpper d) || hasAcronym s'
  | _ => false
  end.

Definition actionVerbs : list string :=
  ["write"; "create"; "build"; "explain"; "fix"; "debug"; "analyze";
   "compare"; "list"; "generate"; "design"; "implement"; "describe";
   "summarize"; "translate"; "convert"; "show"; "tell"; "help"; "make"].

(** A length as a JavaScript number. *)
Definition num (n : nat) : float := PrimFloat.of_uint63 (Uint63.of_Z (Z.of_nat n)).

Local Open Scope Z_scope.

Definition scoreByRules (text : string) (gaps : list string) : ScoreCard :=
  let words := List.filter JS.truthy (JS.split_ws text) in
  let wordCount := Z.of_nat (length words) in
  let sentenceCount :=
    let n := Z.of_nat (countRuns false text) in if n =? 0 then 1 else n in
  let hasQuestionMark := JS.includes text "?" in
  let uniqueWords : gset string := list_to_set (map JS.toLowerCase words) in

  let clarity := 3 in
  let clarity := if 5 <=? wordCount then clarity + 1 else clarity in
  let clarity := if 10 <=? wordCount then clarity + 1 else clarity in
  let clarity := if 20 <=? wordCount then clarity + 1 else clarity in
  let clarity := if 2 <=? sentenceCount then clarity + 1 else clarity in
  let clarity := if JS.includes text "," then clarity + 1 else clarity in
  let clarity :=
    if hasQuestionMark || JS.includes text "." then clarity + 1 else clarity in
  let clarity := if wordCount <? 3 then Z.max 1 (clarity - 3) else clarity in
  let clarity := Z.min 10 clarity in

  let completeness := 10 - Z.of_nat (length gaps) * 2 in
  let completeness := if 15 <=? wordCount then completeness + 1 else completeness in
  let completeness := if 30 <=? wordCount then completeness + 1 else completeness in
  let completeness := Z.max 1 (Z.min 10 completeness) in

  let specificity := 3 in
  let diversityRatio :=
    (num (size uniqueWords) / num (Z.to_nat (Z.max wordCount 1)))%float in
  let specificity :=
    if (0x1.3333333333333p-1 <? diversityRatio)%float
    then specificity + 1 else specificity in
  let specificity :=
    if (0x1.999999999999ap-1 <? diversityRatio)%float
    then specificity + 1 else specificity in
  let specificity := if 8 <=? wordCount then specificity + 1 else specificity in
  let specificity := if 15 <=? wordCount then specificity + 1 else specificity in
  let specificity := if 25 <=? wordCount then specificity + 1 else specificity in
  let specificity := if hasDigits text then specificity + 1 else specificity in
  let specificity := if hasAcronym text then specificity + 1 else specificity in
  let specificity := Z.min 10 specificity in

  let intentAlignment := 4 in
  let lower := JS.toLowerCase text in
  let hasAction := JS.some (fun v => JS.includes lower v) actionVerbs in
  let intentAlignment := if hasAction then intentAlignment + 3 else intentAlignment in
  let intentAlignment :=
    if hasQuestionMark then intentAlignment + 1 else intentAlignment in
  let intentAlignment :=
    if 5 <=? wordCount then intentAlignment + 1 else intentAlignment in
  let intentAlignment :=
    if wordCount <? 3 then Z.max 1 (intentAlignment - 2) else intentAlignment in
  let intentAlignment := Z.min 10 intentAlignment in

  let total := clarity + completeness + specificity + intentAlignment in
  mkScoreCard clarity completeness specificity intentAlignment total.

Definition score (text : string) (gaps : list string) : ScoreCard :=
  scoreByRules text gaps.

End ScoringEngine.

(** ** services/warningGenerator.js *)

Module WarningGenerator.

(** The messages [generate] can push, in the order of the source; each
    constructor stands for one message literal.  [MissingConstraints]
    carries the interpolated [gaps.join(', ')]. *)
Inductive Warning : Type :=
  | HighHallucinationRisk      (* 'High hallucination risk: ...' *)
  | ModerateHallucinationRisk  (* 'Moderate hallucination risk: ...' *)
  | MostConstraintsMissing     (* 'Most constraints are missing. ...' *)
  | MissingConstraints (names : string) (* `Missing constraints: ${...}. ...` *)
  | LowClarity                 (* 'Low clarity score. ...' *)
  | UnclearIntent              (* 'Unclear intent. ...' *)
  | LowConfidence              (* 'Intent detection confidence is low. ...' *)
  | LowQuality.                (* 'Overall prompt quality is low. ...' *)

(** [xs.join(sep)] *)
Fixpoint join (sep : string) (xs : list string) : string :=
  match xs with
  | [] => EmptyString
  | [x] => x
  | x :: xs' => x ++ sep ++ join sep xs'
  end.

Local Open Scope Z_scope.

Definition generate (scores : ScoringEngine.ScoreCard) (gaps : list string)
    (intent : IntentDetector.Intent) : list Warning :=
  let warnings : list Warning := [] in
  let warnings :=
    if ScoringEngine.specificity scores <=? 3
    then (warnings ++ [HighHallucinationRisk])%list
    else if ScoringEngine.specificity scores <=? 5
    then (warnings ++ [ModerateHallucinationRisk])%list
    else warnings in
  let warnings :=
    if 4 <=? Z.of_nat (length gaps)
    then (warnings ++ [MostConstraintsMissing])%list
    else if 2 <=? Z.of_nat (length gaps)
    then (warnings ++ [MissingConstraints (join ", " gaps)])%list
    else warnings in
  let warnings :=
    if ScoringEngine.clarity scores <=? 3
    then (warnings ++ [LowClarity])%list else warnings in
  let warnings :=
    if ScoringEngine.intentAlignment scores <=? 3
    then (warnings ++ [UnclearIntent])%list else warnings in
  let warnings :=
    if String.eqb (IntentDetector.confidence intent) "low"
    then (warnings ++ [LowConfidence])%list else warnings in
  let warnings :=
    if ScoringEngine.total scores <=? 12
    then (warnings ++ [LowQuality])%list else warnings in
  warnings.

End WarningGenerator.

(** ** services/driftDetector.js *)

Module DriftDetector.

Definition STOP_WORDS : gset string :=
  list_to_set
    ["a"; "an"; "the"; "is"; "are"; "was"; "were"; "be"; "been"; "being";
     "have"; "has"; "had"; "do"; "does"; "did"; "will"; "would"; "could";
     "should"; "may"; "might"; "can"; "shall"; "to"; "of"; "in"; "for";
     "on"; "with"; "at"; "by"; "from"; "as"; "into"; "through"; "during";
     "before"; "after"; "above"; "below"; "between"; "and"; "but"; "or";
     "nor"; "not"; "so"; "yet"; "both"; "either"; "neither"; "each";
     "every"; "all"; "any"; "few"; "more"; "most"; "other"; "some";
     "such"; "no"; "only"; "own"; "same"; "than"; "too"; "very"; "just";
     "about"; "it"; "its"; "i"; "me"; "my"; "we"; "our"; "you"; "your";
     "he"; "she"; "they"; "them"; "this"; "that"; "these"; "those";
     "what"; "which"; "who"; "whom"; "how"; "when"; "where"; "why";
     "if"; "then"; "else"; "while"; "up"; "out"; "off"].

(** [.replace(/[^a-z0-9\s]/g, '')] *)
Fixpoint strip (s : string) : string :=
  match s with
  | EmptyString => EmptyString
  | String c s' =>
      if JS.isLower c || JS.isDigit c || JS.isSpace c
      then String c (strip s') else strip s'
  end.

Definition isKeyword (w : string) : bool :=
  (2 <? String.length w)%nat && negb (bool_decide (w ∈ STOP_WORDS)).

Definition extractKeywords (text : string) : list string :=
  List.filter isKeyword (JS.split_ws (strip (JS.toLowerCase text))).

Record DriftResult := mkDriftResult {
  driftDetected : bool;
  driftWarning : string
}.

(** What [Math.round] returns: an integer, or one of the values it leaves
    unchanged. *)
Inductive Rounded : Type :=
  | Int (z : Z)
  | NaN
  | Infinity (negative : bool).

(** [Math.round(x)]: the integer [floor(x + 1/2)], computed exactly from
    the binary expansion of [x]. *)
Definition Math_round (x : float) : Rounded :=
  match Prim2SF x with
  | S754_zero _ => Int 0
  | S754_nan => NaN
  | S754_infinity s => Infinity s
  | S754_finite s m e =>
      let sm := if s then Zneg m else Zpos m in
      Int (if (0 <=? e)%Z then sm * 2 ^ e
           else (2 * sm + 2 ^ (- e)) / 2 ^ (1 - e))%Z
  end.

(** The text a template literal interpolates for such a number (integers
    below 10^21 in magnitude print as plain decimal digits). *)
Definition toString (r : Rounded) : string :=
  match r with
  | Int z => NilZero.string_of_int (Z.to_int z)
  | NaN => "NaN"
  | Infinity false => "Infinity"
  | Infinity true => "-Infinity"
  end.

Definition detectByRules (originalText refinedText : string) : DriftResult :=
  let origKeywords := extractKeywords originalText in
  let refinedKeywords : gset string := list_to_set (extractKeywords refinedText) in
  if (length origKeywords =? 0)%nat
  then mkDriftResult false ""
  else
    let overlap :=
      length (List.filter (fun kw => bool_decide (kw ∈ refinedKeywords)) origKeywords) in
    let overlapRatio :=
      (ScoringEngine.num overlap / ScoringEngine.num (length origKeywords))%float in
    if (overlapRatio <? 0x1.999999999999ap-2)%float
    then mkDriftResult true
           ("Intent drift detected: only " ++
            toString (Math_round (overlapRatio * 100)%float) ++
            "% of original keywords are preserved in the refined prompt. " ++
            "The refinement may have altered your original intent.")
    else mkDriftResult false "".

Definition detect (originalText refinedText : string) : DriftResult :=
  detectByRules originalText refinedText.

End DriftDetector.

(** ** controllers/promptController.js

    The request handlers in the configuration the code itself provides for:
    the AI collaborator unavailable ([promptAnalyzer.analyze] resolves to
    [null], as it does whenever [USE_AI] is not ['true']) and no store
    ([Prompt] is [null], so [findPrompt] resolves to [null] and [savePrompt]
    does nothing).  Then each handler is a function of the request body. *)

Module PromptController.

(** [res.json(body)], or [res.status(code).json({ error })]. *)
Inductive Reply (A : Type) : Type :=
  | Json (body : A)
  | Fail (status : nat).
Arguments Json {A} body.
Arguments Fail {A} status.

Record Version := mkVersion { label : string; text : string }.

(** A value of the [selections] object: one string, or the array of the
    chips selected for the gap. *)
Inductive Selection : Type :=
  | One (value : string)
  | Many (values : list string).


(** An entry of the [warnings] array of a reply: a message of
    [warningGenerator], or the drift notice that [refinePrompt] puts in
    front, which carries [drift.driftWarning]. *)
Inductive Notice : Type :=
  | Generated (w : WarningGenerator.Warning)
  | DriftNotice (driftWarning : string).

(** [existing?.intent || {}] without a stored prompt: the empty object,
    whose [confidence] is undefined and so differs from ['low']. *)
Definition noIntent : IntentDetector.Intent :=
  IntentDetector.mkIntent "" "" "".

Module Analyzed.
Record Result := mkResult {
  promptId : string;
  intent : IntentDetector.Intent;
  gaps : list string;
  suggestions : gmap string (list string);
  scores : ScoringEngine.ScoreCard;
  warnings : list WarningGenerator.Warning;
  versions : list Version;
  driftWarning : string
}.
End Analyzed.

Module Clarified.
Record Result := mkResult {
  promptId : string;
  refined : string;
  constraints : list (string * Selection);
  gaps : list string;
  suggestions : gmap string (list string);
  scores : ScoringEngine.ScoreCard;
  warnings : list WarningGenerator.Warning;
  versions : list Version
}.
End Clarified.

Module Refined.
Record Result := mkResult {
  promptId : string;
  refined : string;
  scores : ScoringEngine.ScoreCard;
  warnings : list Notice;
  driftWarning : string;
  driftDetected : bool;
  versions : list Version
}.
End Refined.

(** POST /api/prompt.  [text] is [req.body.text] when it is a string
    ([None]: absent or of another type); [uuid] is the identifier drawn by
    [uuidv4()]. *)
Definition analyzePrompt (uuid : string) (text : option string)
    : Reply Analyzed.Result :=
  match text with
  | None => Fail 400
  | Some text =>
      if negb (JS.truthy text) || (String.length (JS.trim text) =? 0)%nat
      then Fail 400
      else
        let rawText := JS.trim text in
        let promptId := uuid in
        let intent := IntentDetector.detect rawText in
        let ruleConstraints := ConstraintDetector.detect rawText in
        let gaps := ConstraintDetector.gaps ruleConstraints in
        let suggestions := ConstraintDetector.suggestions ruleConstraints in
        let structuredText := rawText in
        let finalScores := ScoringEngine.score rawText gaps in
        let warnings := WarningGenerator.generate finalScores gaps intent in
        let versions :=
          [mkVersion "v0_raw" rawText; mkVersion "v1_structured" structuredText] in
        Json (Analyzed.mkResult promptId intent gaps suggestions finalScores
                warnings versions "")
  end.



(** POST /api/refine.  Without the AI the refined text is the submitted
    text itself. *)
Definition refinePrompt (uuid : string) (promptId : option string)
    (text : option string) (originalText : option string)
    : Reply Refined.Result :=
  match text with
  | None => Fail 400
  | Some text =>
      if negb (JS.truthy text) then Fail 400
      else
        let originalText := match originalText with
                            | Some t => if JS.truthy t then t else text
                            | None => text
                            end in
        let refined := text in
        let drift := DriftDetector.detect originalText refined in
        let ruleConstraints := ConstraintDetector.detect refined in
        let scores :=
          ScoringEngine.score refined (ConstraintDetector.gaps ruleConstraints) in
        let warnings :=
          map Generated
            (WarningGenerator.generate scores
               (ConstraintDetector.gaps ruleConstraints) noIntent) in
        let warnings :=
          if DriftDetector.driftDetected drift
          then DriftNotice (DriftDetector.driftWarning drift) :: warnings
          else warnings in
        let versionLabel := "v2_refined" in
        let versions :=
          [mkVersion "v0_raw" originalText; mkVersion versionLabel refined] in
        let promptId := match promptId with
                        | Some p => if JS.truthy p then p else uuid
                        | None => uuid
                        end in
        Json (Refined.mkResult promptId refined scores warnings
                (DriftDetector.driftWarning drift)
                (DriftDetector.driftDetected drift) versions)
  end.

End PromptController.

(** * Properties *)

(** ** Substrings *)

Section Substrings.

(** [t] occurs in [s]. *)
Definition occursIn (t s : string) : Prop :=
  exists pre post, s = pre ++ t ++ post.

Lemma append_cons (c : ascii) (s t : string) :
  String c s ++ t = String c (s ++ t).
Proof. reflexivity. Qed.

Lemma append_nil_l (s : string) : "" ++ s = s.
Proof. reflexivity. Qed.

Lemma prefix_split (t s : string) :
  String.prefix t s = true <-> exists post, s = t ++ post.
Proof.
  revert s. induction t as [|c t IH]; intros s; simpl.
  - split; [intros _; exists s; reflexivity | destruct s; reflexivity].
  - destruct s as [|d s]; simpl.
    + split; [discriminate | intros [post H]; discriminate].
    + destruct (ascii_dec c d) as [->|Hcd].
      * rewrite IH. split; intros [post H]; exists post;
          rewrite append_cons in *; congruence.
      * split; [discriminate | intros [post H]; rewrite append_cons in H; congruence].
Qed.

Lemma includes_occursIn (s t : string) :
  JS.includes s t = true <-> occursIn t s.
Proof.
  induction s as [|c s IH]; cbn [JS.includes].
  - rewrite orb_false_r, prefix_split. split.
    + intros [post H]. exists "", post. exact H.
    + intros [pre [post H]]. destruct pre; [exists post; exact H | discriminate].
  - rewrite orb_true_iff, prefix_split, IH. split.
    + intros [[post H] | [pre [post H]]].
      * exists "", post. exact H.
      * exists (String c pre), post. rewrite append_cons. congruence.
    + intros [pre [post H]]. destruct pre as [|d pre];
        [rewrite append_nil_l in H | rewrite append_cons in H].
      * left. exists post. exact H.
      * right. exists pre, post. congruence.
Qed.

Lemma includes_false (s t : string) :
  JS.includes s t = false <-> ~ occursIn t s.
Proof.
  rewrite <- includes_occursIn. destruct (JS.includes s t); split; congruence.
Qed.

Lemma some_In {A} (p : A -> bool) (xs : list A) :
  JS.some p xs = true <-> exists x, In x xs /\ p x = true.
Proof. apply existsb_exists. Qed.

End Substrings.

(** ** Intent classification *)

Section Classify.

Import IntentDetector.

Lemma scanKeywords_some (lower : string) (kws : list string) :
  scanKeywords lower kws = JS.some (JS.includes lower) kws.
Proof.
  induction kws as [|kw kws IH]; simpl; [reflexivity|].
  rewrite IH. destruct (JS.includes lower kw); reflexivity.
Qed.

(** A rule fires when one of its keywords occurs in the lowercased text. *)
Definition fires (lower : string) (r : Rule) : Prop :=
  exists kw, In kw (keywords r) /\ occursIn kw lower.

Lemma scanKeywords_fires (lower : string) (r : Rule) :
  scanKeywords lower (keywords r) = true <-> fires lower r.
Proof.
  rewrite scanKeywords_some, some_In. unfold fires.
  split; intros [kw [Hin H]]; exists kw; split; auto; apply includes_occursIn; auto.
Qed.

Lemma scanRules_first (lower : string) (before : list Rule) (r : Rule) (after : list Rule) :
  Forall (fun r' => ~ fires lower r') before ->
  fires lower r ->
  scanRules lower (before ++ r :: after) = mkIntent (intent r) "medium" "rule".
Proof.
  induction 1 as [|r' before Hr' _ IH]; intros Hr; simpl.
  - apply scanKeywords_fires in Hr. rewrite Hr. reflexivity.
  - destruct (scanKeywords lower (keywords r')) eqn:E.
    + apply scanKeywords_fires in E. contradiction.
    + auto.
Qed.

Lemma scanRules_none (lower : string) (rules : list Rule) :
  Forall (fun r' => ~ fires lower r') rules ->
  scanRules lower rules = mkIntent "general" "low" "rule".
Proof.
  induction 1 as [|r' rules Hr' _ IH]; simpl; [reflexivity|].
  destruct (scanKeywords lower (keywords r')) eqn:E; [|exact IH].
  apply scanKeywords_fires in E. contradiction.
Qed.

Definition code_generation_rule : Rule := nth 0 INTENT_RULES (mkRule "" []).
Definition explanation_rule : Rule := nth 1 INTENT_RULES (mkRule "" []).
Definition debugging_rule : Rule := nth 2 INTENT_RULES (mkRule "" []).

End Classify.

(** C5.  [classify] returns the first rule of the table, in table order, one
    of whose keywords occurs in the lowercased text, with confidence medium
    and source rule; when no rule fires it returns general / low / rule; and
    a text whose lowercased form contains "explain" and "fix" but no
    code_generation keyword is classified as explanation. *)
Theorem classify_first_match (text : string) :
  text <> "" ->
  let lower := JS.toLowerCase text in
  (forall before r after,
      IntentDetector.INTENT_RULES = (before ++ r :: after)%list ->
      Forall (fun r' => ~ fires lower r') before ->
      fires lower r ->
      IntentDetector.detect text =
        IntentDetector.mkIntent (IntentDetector.intent r) "medium" "rule") /\
  (Forall (fun r' => ~ fires lower r') IntentDetector.INTENT_RULES ->
   IntentDetector.detect text = IntentDetector.mkIntent "general" "low" "rule") /\
  (occursIn "explain" lower -> occursIn "fix" lower ->
   ~ fires lower code_generation_rule ->
   IntentDetector.detect text =
     IntentDetector.mkIntent "explanation" "medium" "rule").
Proof.
  intros _ lower. unfold IntentDetector.detect, IntentDetector.detectByRules.
  fold lower. split; [|split].
  - intros before r after -> Hbefore Hr. apply scanRules_first; assumption.
  - apply scanRules_none.
  - intros Hexplain _ Hcode.
    apply (scanRules_first lower [code_generation_rule] explanation_rule).
    + constructor; [exact Hcode | constructor].
    + exists "explain". split; [simpl; auto | exact Hexplain].
Qed.

Lemma classify_first_match_witness :
  IntentDetector.detect "Explain how to fix it" =
    IntentDetector.mkIntent "explanation" "medium" "rule".
Proof.
  refine (proj2 (proj2 (classify_first_match "Explain how to fix it" _)) _ _ _).
  - discriminate.
  - apply includes_occursIn. reflexivity.
  - apply includes_occursIn. reflexivity.
  - intros [kw [Hin Hocc]]. apply includes_occursIn in Hocc.
    simpl in Hin.
    repeat (destruct Hin as [<-|Hin]; [discriminate Hocc|]). exact Hin.
Defined.

(** C10.  Intent keywords are matched by plain substring containment, with
    no word-boundary handling: wherever "fix" occurs in the lowercased text,
    even inside another word, the debugging rule fires unless an earlier
    rule does; so "Summarize suffix arrays" is classified as debugging, not
    as summarization. *)
Theorem classify_substring_inside_word :
  IntentDetector.detect "Summarize suffix arrays" =
    IntentDetector.mkIntent "debugging" "medium" "rule" /\
  (forall text pre post,
      JS.toLowerCase text = pre ++ "fix" ++ post ->
      ~ fires (JS.toLowerCase text) code_generation_rule ->
      ~ fires (JS.toLowerCase text) explanation_rule ->
      IntentDetector.detect text =
        IntentDetector.mkIntent "debugging" "medium" "rule").
Proof.
  split; [vm_compute; reflexivity|].
  intros text pre post Hfix Hcode Hexpl.
  unfold IntentDetector.detect, IntentDetector.detectByRules.
  apply (scanRules_first _ [code_generation_rule; explanation_rule] debugging_rule).
  - repeat constructor; assumption.
  - exists "fix". split; [simpl; auto|]. exists pre, post. exact Hfix.
Qed.

(** ** Scoring *)

Section Scoring.

Import ScoringEngine.
Local Open Scope Z_scope.

(** Case analysis on every test of a chain of conditional adjustments. *)
Ltac split_ifs :=
  repeat match goal with
         | |- context [if ?b then _ else _] => destruct b
         end.

Lemma clarity_range (text : string) (gaps : list string) :
  1 <= clarity (scoreByRules text gaps) <= 9.
Proof. unfold scoreByRules; cbv zeta; cbn [clarity]. split_ifs; lia. Qed.

Lemma completeness_range (text : string) (gaps : list string) :
  1 <= completeness (scoreByRules text gaps) <= 10.
Proof. unfold scoreByRules; cbv zeta; cbn [completeness]. lia. Qed.

Lemma specificity_range (text : string) (gaps : list string) :
  3 <= specificity (scoreByRules text gaps) <= 10.
Proof. unfold scoreByRules; cbv zeta; cbn [specificity]. split_ifs; lia. Qed.

Lemma intentAlignment_range (text : string) (gaps : list string) :
  2 <= intentAlignment (scoreByRules text gaps) <= 9.
Proof. unfold scoreByRules; cbv zeta; cbn [intentAlignment]. split_ifs; lia. Qed.

Lemma total_sum (text : string) (gaps : list string) :
  let c := scoreByRules text gaps in
  total c = clarity c + completeness c + specificity c + intentAlignment c.
Proof. reflexivity. Qed.

End Scoring.

(** C1.  For a non-empty text and any list of gaps, the score card's total is
    the sum of the four sub-scores; clarity, specificity and intent
    alignment are integers in [0,10], completeness is in [1,10], and the
    total is in [0,40]. *)
Theorem score_card_invariant (text : string) (gaps : list string) :
  text <> "" ->
  let c := ScoringEngine.score text gaps in
  (ScoringEngine.total c =
     ScoringEngine.clarity c + ScoringEngine.completeness c +
     ScoringEngine.specificity c + ScoringEngine.intentAlignment c /\
   0 <= ScoringEngine.clarity c <= 10 /\
   1 <= ScoringEngine.completeness c <= 10 /\
   0 <= ScoringEngine.specificity c <= 10 /\
   0 <= ScoringEngine.intentAlignment c <= 10 /\
   0 <= ScoringEngine.total c <= 40)%Z.
Proof.
  intros _ c. unfold c, ScoringEngine.score.
  pose proof (clarity_range text gaps).
  pose proof (completeness_range text gaps).
  pose proof (specificity_range text gaps).
  pose proof (intentAlignment_range text gaps).
  pose proof (total_sum text gaps) as Hsum. cbv zeta in Hsum.
  repeat split; lia.
Qed.

Lemma score_card_invariant_witness :
  (0 <= ScoringEngine.total (ScoringEngine.score "fix" ["language"; "level"]) <= 40)%Z.
Proof.
  refine (proj2 (proj2 (proj2 (proj2 (proj2
    (score_card_invariant "fix" ["language"; "level"] _)))))).
  discriminate.
Defined.

(** C7.  On the one-word text "fix" the clarity is exactly 1 and the intent
    alignment exactly 5, whatever the gaps. *)
Theorem score_fix (gaps : list string) :
  ScoringEngine.clarity (ScoringEngine.score "fix" gaps) = 1%Z /\
  ScoringEngine.intentAlignment (ScoringEngine.score "fix" gaps) = 5%Z.
Proof. split; vm_compute; reflexivity. Qed.

(** ** Warnings *)

Section Warnings.

Import WarningGenerator.
Local Open Scope Z_scope.

(** The six trigger conditions of [generate]. *)
Definition triggered (scores : ScoringEngine.ScoreCard) (gaps : list string)
    (intent : IntentDetector.Intent) : Prop :=
  ScoringEngine.specificity scores <= 5 \/
  (2 <= length gaps)%nat \/
  ScoringEngine.clarity scores <= 3 \/
  ScoringEngine.intentAlignment scores <= 3 \/
  IntentDetector.confidence intent = "low" \/
  ScoringEngine.total scores <= 12.

Ltac split_tests :=
  repeat match goal with
         | |- context [Z.leb ?a ?b] => destruct (Z.leb_spec a b)
         | |- context [String.eqb ?a ?b] => destruct (String.eqb_spec a b)
         end.

Lemma generate_nil_iff scores gaps intent :
  generate scores gaps intent = [] <-> ~ triggered scores gaps intent.
Proof.
  unfold generate, triggered; cbv zeta.
  split_tests; simpl; split; intros Hgoal;
    first [ discriminate Hgoal
          | reflexivity
          | intros Ht; intuition lia
          | exfalso; apply Hgoal; intuition lia ].
Qed.

Lemma generate_exclusive scores gaps intent :
  ~ (In HighHallucinationRisk (generate scores gaps intent) /\
     In ModerateHallucinationRisk (generate scores gaps intent)).
Proof.
  unfold generate; cbv zeta.
  split_tests; simpl; intuition discriminate.
Qed.

End Warnings.

(** C8.  [generateWarnings] returns the empty list exactly when none of the
    six trigger conditions holds; it is empty for the all-10 score card with
    no gaps and confidence high; and the high and the moderate
    hallucination-risk messages never appear together. *)
Theorem generate_empty_iff_untriggered
    (scores : ScoringEngine.ScoreCard) (gaps : list string)
    (intent : IntentDetector.Intent) :
  (WarningGenerator.generate scores gaps intent = [] <->
   ~ triggered scores gaps intent) /\
  (forall detected source,
      WarningGenerator.generate (ScoringEngine.mkScoreCard 10 10 10 10 40) []
        (IntentDetector.mkIntent detected "high" source) = []) /\
  ~ (In WarningGenerator.HighHallucinationRisk
       (WarningGenerator.generate scores gaps intent) /\
     In WarningGenerator.ModerateHallucinationRisk
       (WarningGenerator.generate scores gaps intent)).
Proof.
  split; [apply generate_nil_iff|].
  split; [reflexivity | apply generate_exclusive].
Qed.

(** ** Constraint gaps *)

(** Replace the gaps of a closed detection by their value. *)
Ltac eval_gaps :=
  match goal with
  | |- context [ConstraintDetector.gaps ?d] =>
      let g := eval vm_compute in (ConstraintDetector.gaps d) in
      change (ConstraintDetector.gaps d) with g
  end.

Section Gaps.

Import ConstraintDetector.

(** The fixed enumeration order of the constraint categories. *)
Definition CATEGORIES : list string :=
  ["language"; "level"; "output_format"; "scope"; "examples"].

(** The verdict of [detectByRules] on one category. *)
Definition judgedPresent (lower cat : string) : Prop :=
  (cat = "language" /\ hasLanguage lower = true) \/
  (cat = "level" /\ hasLevel lower = true) \/
  (cat = "output_format" /\ hasFormat lower = true) \/
  (cat = "scope" /\ hasScope lower = true) \/
  (cat = "examples" /\ hasExamples lower = true).

(** [detectByRules] as a function of the five verdicts. *)
Definition assemble (l v f s e : bool) : Detection :=
  check e "examples" (examples DEFAULT_SUGGESTIONS)
    (check s "scope" (scope DEFAULT_SUGGESTIONS)
       (check f "output_format" (output_format DEFAULT_SUGGESTIONS)
          (check v "level" (level DEFAULT_SUGGESTIONS)
             (check l "language" (language DEFAULT_SUGGESTIONS)
                (mkDetection [] ∅))))).

Lemma detectByRules_assemble (text : string) :
  let lower := JS.toLowerCase text in
  detectByRules text =
    assemble (hasLanguage lower) (hasLevel lower) (hasFormat lower)
      (hasScope lower) (hasExamples lower).
Proof. reflexivity. Qed.

Lemma NoDup_CATEGORIES : NoDup CATEGORIES.
Proof. apply NoDup_ListNoDup. repeat constructor; simpl; intuition discriminate. Qed.

Lemma assemble_ordered (l v f s e : bool) :
  gaps (assemble l v f s e) `sublist_of` CATEGORIES.
Proof. destruct l, v, f, s, e; eval_gaps; repeat constructor. Qed.

(** The keys of [suggestions] are the members of [gaps], without repeats. *)
Definition keysAreGaps (d : Detection) : Prop :=
  dom (suggestions d) = list_to_set (gaps d) /\
  size (suggestions d) = length (gaps d).

(** One block keeps the correspondence when its category is not yet a gap. *)
Lemma check_keysAreGaps (has : bool) (name : string) (chips : list string)
    (d : Detection) :
  ~ In name (gaps d) -> keysAreGaps d -> keysAreGaps (check has name chips d).
Proof.
  intros Hfresh [Hdom Hsize]. unfold check.
  destruct has; cbn [negb]; [split; assumption|].
  assert (suggestions d !! name = None) as Hnone.
  { apply not_elem_of_dom. rewrite Hdom, elem_of_list_to_set, list_elem_of_In.
    exact Hfresh. }
  split; cbn [gaps suggestions].
  - rewrite dom_insert_L, list_to_set_app_L, Hdom. cbn [list_to_set foldr].
    rewrite (right_id_L ∅ (∪)). apply (comm_L (∪)).
  - rewrite map_size_insert_None by exact Hnone.
    rewrite length_app, Hsize. simpl. lia.
Qed.

Lemma assemble_keys (l v f s e : bool) : keysAreGaps (assemble l v f s e).
Proof.
  unfold assemble.
  apply check_keysAreGaps;
    [destruct l, v, f, s; eval_gaps; simpl; intuition discriminate|].
  apply check_keysAreGaps;
    [destruct l, v, f; eval_gaps; simpl; intuition discriminate|].
  apply check_keysAreGaps;
    [destruct l, v; eval_gaps; simpl; intuition discriminate|].
  apply check_keysAreGaps;
    [destruct l; eval_gaps; simpl; intuition discriminate|].
  apply check_keysAreGaps; [simpl; tauto|].
  split; [cbn [gaps suggestions list_to_set]; apply dom_empty_L | reflexivity].
Qed.

Lemma assemble_present (l v f s e : bool) (cat : string) :
  (cat = "language" /\ l = true) \/ (cat = "level" /\ v = true) \/
  (cat = "output_format" /\ f = true) \/ (cat = "scope" /\ s = true) \/
  (cat = "examples" /\ e = true) ->
  ~ In cat (gaps (assemble l v f s e)) /\
  suggestions (assemble l v f s e) !! cat = None.
Proof.
  intros H.
  destruct l, v, f, s, e; (split; [eval_gaps; simpl|]);
    decompose [and or] H; subst; try discriminate;
    solve [intuition discriminate | vm_compute; reflexivity].
Qed.

End Gaps.

(** C2.  For a non-empty text, the keys of [suggestions] are exactly the
    members of [gaps] (same set, same count); [gaps] lists each category at
    most once, in the fixed order language, level, output_format, scope,
    examples; and a category judged present is in neither. *)
Theorem detectGaps_keys_are_gaps (text : string) :
  text <> "" ->
  let d := ConstraintDetector.detect text in
  dom (ConstraintDetector.suggestions d) = list_to_set (ConstraintDetector.gaps d) /\
  size (ConstraintDetector.suggestions d) = length (ConstraintDetector.gaps d) /\
  NoDup (ConstraintDetector.gaps d) /\
  ConstraintDetector.gaps d `sublist_of` CATEGORIES /\
  (forall cat, judgedPresent (JS.toLowerCase text) cat ->
     ~ In cat (ConstraintDetector.gaps d) /\
     ConstraintDetector.suggestions d !! cat = None).
Proof.
  intros _ d. unfold d, ConstraintDetector.detect.
  rewrite detectByRules_assemble. cbv zeta.
  split; [apply assemble_keys|].
  split; [apply assemble_keys|].
  split; [eapply sublist_NoDup; [apply NoDup_CATEGORIES | apply assemble_ordered]|].
  split; [apply assemble_ordered|].
  intros cat Hcat. apply assemble_present. exact Hcat.
Qed.

Lemma detectGaps_keys_are_gaps_witness :
  let d := ConstraintDetector.detect "Let's use R for this" in
  size (ConstraintDetector.suggestions d) = length (ConstraintDetector.gaps d) /\
  ~ In "language" (ConstraintDetector.gaps d).
Proof.
  pose proof (detectGaps_keys_are_gaps "Let's use R for this") as H.
  cbv zeta in H. destruct H as (_ & Hsize & _ & _ & Hpresent); [discriminate|].
  split; [exact Hsize|].
  apply Hpresent. left. split; reflexivity.
Defined.

(** C3 as stated fails: on the text "fix" the category examples is a gap
    and its suggestion list has two entries, not between 3 and 6. *)
Lemma suggestions_3_to_6_counterexample :
  ~ (forall text cat chips,
       text <> "" ->
       In cat (ConstraintDetector.gaps (ConstraintDetector.detect text)) ->
       ConstraintDetector.suggestions (ConstraintDetector.detect text) !! cat = Some chips ->
       3 <= length chips <= 6).
Proof.
  intros H.
  destruct (H "fix" "examples" ["Include examples"; "No examples needed"])
    as [H3 _]; [discriminate | vm_compute; tauto | reflexivity |].
  cbn [length] in H3. lia.
Qed.

(** C3, amended.  For a non-empty text, every category in [gaps] has a
    suggestion list attached, of between 2 and 6 entries: 6 for language, 3
    for level, 4 for output_format, 4 for scope and 2 for examples. *)
Theorem suggestions_2_to_6 (text cat : string) :
  text <> "" ->
  In cat (ConstraintDetector.gaps (ConstraintDetector.detect text)) ->
  exists chips,
    ConstraintDetector.suggestions (ConstraintDetector.detect text) !! cat = Some chips /\
    2 <= length chips <= 6 /\
    length chips =
      (if String.eqb cat "language" then 6
       else if String.eqb cat "level" then 3
       else if String.eqb cat "output_format" then 4
       else if String.eqb cat "scope" then 4
       else 2).
Proof.
  intros _. unfold ConstraintDetector.detect.
  rewrite detectByRules_assemble. cbv zeta.
  destruct (ConstraintDetector.hasLanguage _), (ConstraintDetector.hasLevel _),
    (ConstraintDetector.hasFormat _), (ConstraintDetector.hasScope _),
    (ConstraintDetector.hasExamples _);
    intros Hin; vm_compute in Hin;
    repeat (destruct Hin as [<-|Hin];
            [eexists; split; [vm_compute; reflexivity | simpl; lia]|]);
    contradiction.
Qed.

Lemma suggestions_2_to_6_witness :
  exists chips,
    ConstraintDetector.suggestions (ConstraintDetector.detect "fix") !! "examples" = Some chips /\
    2 <= length chips <= 6 /\ length chips = 2.
Proof.
  apply (suggestions_2_to_6 "fix" "examples"); [discriminate | vm_compute; tauto].
Defined.

(** ** The word-bounded patterns *)

Section WordBounded.

(** The last code unit of [s], or [prev] when [s] is empty. *)
Fixpoint lastFrom (prev : option ascii) (s : string) : option ascii :=
  match s with
  | EmptyString => prev
  | String c s' => lastFrom (Some c) s'
  end.

Definition lastChar (s : string) : option ascii := lastFrom None s.

(** There is a word boundary between two neighbours when exactly one of
    them is a word character; the ends of the text count as non-word. *)
Definition boundary (a b : option ascii) : Prop :=
  JS.isWordOpt a <> JS.isWordOpt b.

(** Equality up to the case folding of a pattern with the [i] flag. *)
Definition foldEq (s t : string) : Prop :=
  map JS.canonicalize (list_ascii_of_string s) =
  map JS.canonicalize (list_ascii_of_string t).

(** [lit] occurs in [s] with a word boundary on each side. *)
Definition wordBounded (lit s : string) : Prop :=
  exists pre post,
    s = pre ++ lit ++ post /\
    boundary (lastChar pre) (JS.head (lit ++ post)) /\
    boundary (lastChar (pre ++ lit)) (JS.head post).

Definition chars (lit : string) : list JS.atom :=
  map JS.Char (list_ascii_of_string lit).

Lemma lastFrom_append (prev : option ascii) (s t : string) :
  lastFrom prev (s ++ t) = lastFrom (lastFrom prev s) t.
Proof.
  revert prev. induction s as [|c s IH]; intros prev; [reflexivity|].
  rewrite append_cons. simpl. apply IH.
Qed.

Lemma xorb_boundary (a b : option ascii) :
  xorb (JS.isWordOpt a) (JS.isWordOpt b) = true <-> boundary a b.
Proof.
  unfold boundary. destruct (JS.isWordOpt a), (JS.isWordOpt b); simpl;
    split; congruence.
Qed.

(** A run of literal atoms consumes a case-folded copy of the literal. *)
Lemma matchHere_chars (lit : string) (rest : list JS.atom)
    (prev : option ascii) (s : string) :
  JS.matchHere true (chars lit ++ rest) prev s = true <->
  exists mid post,
    s = mid ++ post /\ foldEq mid lit /\
    JS.matchHere true rest (lastFrom prev mid) post = true.
Proof.
  revert prev s. induction lit as [|c lit IH]; intros prev s.
  - simpl. split.
    + intros H. exists "", s. repeat split. exact H.
    + intros (mid & post & -> & Hfold & H).
      destruct mid; [exact H | discriminate Hfold].
  - change (chars (String c lit) ++ rest)%list
      with (JS.Char c :: (chars lit ++ rest))%list.
    cbn [JS.matchHere]. destruct s as [|d s].
    + split; [discriminate|].
      intros (mid & post & Hs & Hfold & _).
      destruct mid; [discriminate Hfold | discriminate Hs].
    + rewrite andb_true_iff, IH, N.eqb_eq. split.
      * intros (Hd & mid & post & -> & Hfold & H).
        exists (String d mid), post. repeat split; [|exact H].
        unfold foldEq in *. simpl. congruence.
      * intros (mid & post & Hs & Hfold & H).
        destruct mid as [|d' mid]; [discriminate Hfold|].
        rewrite append_cons in Hs. injection Hs as <- ->.
        unfold foldEq in Hfold. simpl in Hfold. injection Hfold as Hd Hfold.
        split; [exact Hd|]. exists mid, post. repeat split; assumption.
Qed.

(** [searchFrom] finds a match at some split of the text. *)
Lemma searchFrom_split (ic : bool) (atoms : list JS.atom)
    (prev : option ascii) (s : string) :
  JS.searchFrom ic atoms prev s = true <->
  exists pre post,
    s = pre ++ post /\ JS.matchHere ic atoms (lastFrom prev pre) post = true.
Proof.
  revert prev. induction s as [|d s IH]; intros prev; cbn [JS.searchFrom].
  - rewrite orb_false_r. split.
    + intros H. exists "", "". split; [reflexivity | exact H].
    + intros (pre & post & Hs & H).
      destruct pre; [|discriminate Hs]. destruct post; [|discriminate Hs].
      exact H.
  - rewrite orb_true_iff, IH. split.
    + intros [H | (pre & post & -> & H)].
      * exists "", (String d s). split; [reflexivity | exact H].
      * exists (String d pre), post. split; [reflexivity | exact H].
    + intros (pre & post & Hs & H). destruct pre as [|d' pre].
      * left. rewrite append_nil_l in Hs. subst post. exact H.
      * right. rewrite append_cons in Hs. injection Hs as <- ->.
        exists pre, post. split; [reflexivity | exact H].
Qed.

(** The pattern built from a literal always compiles, to the literal's
    code units between two boundary assertions. *)
Lemma compile_escaped (lit tail : string) :
  JS.compile (JS.escapeRegex lit ++ tail) =
  option_map (app (chars lit)) (JS.compile tail).
Proof.
  induction lit as [|c lit IH].
  - simpl. rewrite append_nil_l. destruct (JS.compile tail); reflexivity.
  - cbn [JS.escapeRegex]. destruct (JS.isSyntaxChar c) eqn:Hc.
    + rewrite !append_cons. cbn [JS.compile]. rewrite Ascii.eqb_refl.
      destruct (Ascii.eqb_spec c "b") as [->|_]; [discriminate Hc|].
      rewrite Hc, IH. destruct (JS.compile tail); reflexivity.
    + rewrite append_cons. cbn [JS.compile].
      destruct (Ascii.eqb_spec c "\") as [->|_]; [discriminate Hc|].
      rewrite Hc, IH. destruct (JS.compile tail); reflexivity.
Qed.

Lemma compile_word_bounded (lit : string) :
  JS.compile ("\b" ++ JS.escapeRegex lit ++ "\b") =
  Some (JS.WordBoundary :: chars lit ++ [JS.WordBoundary])%list.
Proof.
  change ("\b" ++ JS.escapeRegex lit ++ "\b")
    with (String "\" (String "b" (JS.escapeRegex lit ++ "\b"))).
  cbn [JS.compile]. rewrite Ascii.eqb_refl.
  change (Ascii.eqb "b" "b") with true. cbv iota.
  rewrite compile_escaped. reflexivity.
Qed.

(** What [\b lit \b] with the [i] flag accepts. *)
Lemma test_word_bounded (lit s : string) :
  JS.test true (JS.WordBoundary :: chars lit ++ [JS.WordBoundary]) s = true <->
  exists mid, foldEq mid lit /\ wordBounded mid s.
Proof.
  unfold JS.test. rewrite searchFrom_split. split.
  - intros (pre & rest & -> & H). cbn [JS.matchHere] in H.
    apply andb_true_iff in H as [Hleft H].
    apply matchHere_chars in H as (mid & post & -> & Hfold & H).
    cbn [JS.matchHere] in H. rewrite andb_true_r in H.
    exists mid. split; [exact Hfold|]. exists pre, post.
    split; [reflexivity|]. split.
    + apply xorb_boundary. exact Hleft.
    + apply xorb_boundary. unfold lastChar. rewrite lastFrom_append. exact H.
  - intros (mid & Hfold & pre & post & -> & Hleft & Hright).
    exists pre, (mid ++ post). split; [reflexivity|].
    cbn [JS.matchHere]. apply andb_true_iff. split.
    + apply xorb_boundary. exact Hleft.
    + apply matchHere_chars. exists mid, post.
      split; [reflexivity|]. split; [exact Hfold|].
      cbn [JS.matchHere]. rewrite andb_true_r. apply xorb_boundary.
      unfold lastChar in Hright. rewrite lastFrom_append in Hright. exact Hright.
Qed.

End WordBounded.

(** ** Case folding on lowercased text *)

Section CaseFolding.

Definition allAscii : list ascii := map ascii_of_nat (seq 0 256).

Lemma In_allAscii (c : ascii) : In c allAscii.
Proof.
  rewrite <- (ascii_nat_embedding c). apply in_map, in_seq.
  pose proof (nat_ascii_bounded c). lia.
Qed.

(** A check over all 256 code units, run by computation. *)
Lemma forall_ascii (p : ascii -> bool) :
  forallb p allAscii = true -> forall c, p c = true.
Proof. intros H c. eapply forallb_forall in H; [exact H | apply In_allAscii]. Qed.

Definition noUpper (s : string) : Prop :=
  Forall (fun c => JS.isUpper c = false) (list_ascii_of_string s).

(** An ASCII code unit other than a capital letter. *)
Definition plain (c : ascii) : bool :=
  (JS.code c <? 128)%N && negb (JS.isUpper c).

Definition plainString (s : string) : bool :=
  forallb plain (list_ascii_of_string s).

Lemma toLowerChar_not_upper (c : ascii) : JS.isUpper (JS.toLowerChar c) = false.
Proof.
  apply negb_true_iff.
  apply (forall_ascii (fun c => negb (JS.isUpper (JS.toLowerChar c)))).
  vm_compute. reflexivity.
Qed.

Lemma toLowerCase_noUpper (text : string) : noUpper (JS.toLowerCase text).
Proof.
  unfold noUpper. induction text as [|c text IH]; simpl; constructor.
  - apply toLowerChar_not_upper.
  - exact IH.
Qed.

Lemma canonicalize_plain (d c : ascii) :
  JS.isUpper d = false -> plain c = true ->
  JS.canonicalize d = JS.canonicalize c -> d = c.
Proof.
  intros Hd Hc Heq.
  pose proof (forall_ascii (fun d =>
    forallb (fun c =>
      implb (negb (JS.isUpper d) && plain c &&
             (JS.canonicalize d =? JS.canonicalize c)%N)
            (Ascii.eqb d c)) allAscii)) as H.
  specialize (H ltac:(vm_compute; reflexivity) d).
  eapply forallb_forall in H; [|apply (In_allAscii c)].
  rewrite Hd, Hc, Heq, N.eqb_refl in H. simpl in H.
  apply Ascii.eqb_eq. exact H.
Qed.

Lemma foldEq_plain (mid lit : string) :
  noUpper mid -> plainString lit = true -> foldEq mid lit -> mid = lit.
Proof.
  unfold noUpper, plainString, foldEq. revert lit.
  induction mid as [|d mid IH]; intros [|c lit] Hmid Hlit Hfold;
    try discriminate Hfold; [reflexivity|].
  simpl in *. inversion Hmid; subst.
  apply andb_true_iff in Hlit as [Hc Hlit].
  injection Hfold as Hd Hfold. f_equal.
  - apply canonicalize_plain; assumption.
  - apply IH; assumption.
Qed.

Lemma noUpper_append (s t : string) : noUpper (s ++ t) <-> noUpper s /\ noUpper t.
Proof.
  unfold noUpper. induction s as [|c s IH].
  - rewrite append_nil_l. simpl. split; [intros H; split; [constructor | exact H] | tauto].
  - rewrite append_cons. simpl. split.
    + intros H. inversion H; subst. apply IH in H3 as [Hs Ht].
      split; [constructor; assumption | exact Ht].
    + intros [Hs Ht]. inversion Hs; subst. constructor; [assumption|].
      apply IH. split; assumption.
Qed.

(** On a lowercased text the [i] flag is immaterial for a lowercase ASCII
    literal: the pattern accepts exactly the word-bounded occurrences of
    the literal itself. *)
Lemma test_word_bounded_lower (lit text : string) :
  plainString lit = true ->
  JS.test true (JS.WordBoundary :: chars lit ++ [JS.WordBoundary])
    (JS.toLowerCase text) = true <->
  wordBounded lit (JS.toLowerCase text).
Proof.
  intros Hlit. rewrite test_word_bounded. split.
  - intros (mid & Hfold & Hwb).
    assert (mid = lit) as ->; [|exact Hwb].
    destruct Hwb as (pre & post & Hs & _).
    pose proof (toLowerCase_noUpper text) as Hno. rewrite Hs in Hno.
    apply noUpper_append in Hno as [_ Hno].
    apply noUpper_append in Hno as [Hno _].
    apply foldEq_plain; assumption.
  - intros Hwb. exists lit. split; [reflexivity | exact Hwb].
Qed.

End CaseFolding.

(** ** Language detection *)

Section Language.

Import ConstraintDetector.

(** How an indicator is looked for, by its length. *)
Definition indicates (lang lower : string) : Prop :=
  if (String.length lang <=? 3)%nat
  then wordBounded lang lower
  else occursIn lang lower.

Lemma LANGUAGES_plain : forallb plainString LANGUAGES = true.
Proof. vm_compute. reflexivity. Qed.

Lemma languageMatches_indicates (text lang : string) :
  In lang LANGUAGES ->
  languageMatches (JS.toLowerCase text) lang = true <->
  indicates lang (JS.toLowerCase text).
Proof.
  intros Hin. unfold languageMatches, indicates.
  destruct (String.length lang <=? 3)%nat.
  - rewrite compile_word_bounded. apply test_word_bounded_lower.
    pose proof LANGUAGES_plain as H. eapply forallb_forall in H; eauto.
  - apply includes_occursIn.
Qed.

Lemma hasLanguage_indicates (text : string) :
  hasLanguage (JS.toLowerCase text) = true <->
  exists lang, In lang LANGUAGES /\ indicates lang (JS.toLowerCase text).
Proof.
  unfold hasLanguage. rewrite some_In.
  split; intros (lang & Hin & H); exists lang; (split; [exact Hin|]);
    apply (languageMatches_indicates text lang Hin); exact H.
Qed.

Lemma language_gap_iff (text : string) :
  In "language" (gaps (detectByRules text)) <->
  hasLanguage (JS.toLowerCase text) = false.
Proof.
  rewrite detectByRules_assemble. cbv zeta.
  destruct (hasLanguage _), (hasLevel _), (hasFormat _), (hasScope _),
    (hasExamples _); eval_gaps; simpl; split; intros H;
    first [ discriminate H | reflexivity | tauto | intuition discriminate ].
Qed.

End Language.

(** C4.  The text "algorithm" is not judged to name a language, so language
    is among its gaps, while "Let's use R for this" is judged to name one:
    an indicator of at most 3 characters counts only where it occurs
    between word boundaries, a longer one wherever it occurs in the
    lowercased text. *)
Theorem language_indicators_word_bounded :
  In "language" (ConstraintDetector.gaps (ConstraintDetector.detect "algorithm")) /\
  ~ In "language"
      (ConstraintDetector.gaps (ConstraintDetector.detect "Let's use R for this")) /\
  (forall text,
     ~ In "language" (ConstraintDetector.gaps (ConstraintDetector.detect text)) <->
     exists lang,
       In lang ConstraintDetector.LANGUAGES /\
       indicates lang (JS.toLowerCase text)).
Proof.
  split; [vm_compute; tauto|].
  split; [vm_compute; intuition discriminate|].
  intros text. unfold ConstraintDetector.detect.
  rewrite language_gap_iff, <- hasLanguage_indicates.
  destruct (ConstraintDetector.hasLanguage _); split; congruence.
Qed.

(** ** The indicator "c++" *)

Section CPlusPlus.

Import ConstraintDetector.

(** After its final '+', which is not a word character, the pattern
    [\bc\+\+\b] needs a word character: it accepts exactly the occurrences
    of "c++" that start at a word boundary and are followed by one. *)
Lemma cpp_followed_by_word (s : string) :
  wordBounded "c++" s ->
  exists d, JS.isWordChar d = true /\ occursIn ("c++" ++ String d "") s.
Proof.
  intros (pre & post & -> & _ & Hright).
  unfold lastChar in Hright. rewrite lastFrom_append in Hright.
  destruct post as [|d post].
  - exfalso. apply Hright. reflexivity.
  - exists d. split.
    + unfold boundary in Hright. cbn [lastFrom JS.head JS.isWordOpt] in Hright.
      change (JS.isWordChar "+") with false in Hright.
      destruct (JS.isWordChar d); [reflexivity | congruence].
    + exists pre, post. reflexivity.
Qed.

End CPlusPlus.

(** C9 as stated fails: "use c++11" contains "c++" and no other language
    indicator, not even as a substring, yet language is not among its gaps:
    the word boundary after the final '+' exists when a word character
    follows. *)
Lemma cpp_never_matches_counterexample :
  ~ (forall text,
       JS.includes text "c++" = true ->
       (forall lang, In lang ConstraintDetector.LANGUAGES -> lang <> "c++" ->
                     JS.includes (JS.toLowerCase text) lang = false) ->
       In "language" (ConstraintDetector.gaps (ConstraintDetector.detect text))).
Proof.
  intros H. specialize (H "use c++11" eq_refl).
  assert (In "language" ["level"; "output_format"; "scope"; "examples"]) as Hin.
  { apply H. intros lang Hlang Hne. simpl in Hlang.
    repeat (destruct Hlang as [<-|Hlang];
            [first [reflexivity | contradiction Hne; reflexivity]|]).
    contradiction. }
  simpl in Hin. intuition discriminate.
Qed.

(** C9, amended.  When no occurrence of "c++" in the lowercased text is
    immediately followed by a word character, and no other language
    indicator matches, language is among the gaps (so it is for "use c++"):
    the pattern [\bc\+\+\b] needs a word character after the final '+'. *)
Theorem cpp_unmatched_unless_word_follows (text : string) :
  (forall d, JS.isWordChar d = true ->
             JS.includes (JS.toLowerCase text) ("c++" ++ String d "") = false) ->
  (forall lang, In lang ConstraintDetector.LANGUAGES -> lang <> "c++" ->
                ConstraintDetector.languageMatches (JS.toLowerCase text) lang = false) ->
  In "language" (ConstraintDetector.gaps (ConstraintDetector.detect text)).
Proof.
  intros Hcpp Hother. apply language_gap_iff.
  destruct (ConstraintDetector.hasLanguage (JS.toLowerCase text)) eqn:E;
    [exfalso | reflexivity].
  apply some_In in E as (lang & Hin & Hmatch).
  destruct (string_dec lang "c++") as [->|Hne].
  - apply (languageMatches_indicates text "c++" Hin) in Hmatch.
    apply cpp_followed_by_word in Hmatch as (d & Hd & Hocc).
    apply includes_occursIn in Hocc. rewrite (Hcpp d Hd) in Hocc. discriminate.
  - rewrite (Hother lang Hin Hne) in Hmatch. discriminate.
Qed.

Lemma cpp_unmatched_unless_word_follows_witness :
  In "language" (ConstraintDetector.gaps (ConstraintDetector.detect "use c++")).
Proof.
  apply cpp_unmatched_unless_word_follows.
  - intros d _. destruct d as [[] [] [] [] [] [] [] []]; vm_compute; reflexivity.
  - intros lang Hlang Hne. simpl in Hlang.
    repeat (destruct Hlang as [<-|Hlang];
            [first [reflexivity | contradiction Hne; reflexivity]|]).
    contradiction.
Defined.

(** ** Binary64 division against the threshold 0.4

    The drift detector compares a quotient of two lengths, computed in
    binary64, with the double nearest to 0.4.  This section derives, from
    the specification of the primitive operations, that the comparison
    agrees with the exact one, [5 * k < 2 * n]. *)

Section Binary64.

Local Open Scope Z_scope.

Lemma digits2_size (p : positive) : digits2_pos p = Pos.size p.
Proof. induction p; simpl; congruence. Qed.

Lemma digits_bounds (p : positive) :
  2 ^ (Zpos (digits2_pos p) - 1) <= Zpos p < 2 ^ Zpos (digits2_pos p).
Proof.
  rewrite digits2_size.
  pose proof (Pos.size_gt p) as Hgt. pose proof (Pos.size_le p) as Hle.
  apply Pos2Z.pos_lt_pos in Hgt. apply Pos2Z.pos_le_pos in Hle.
  rewrite Pos2Z.inj_pow in Hgt, Hle. change (Zpos p~0) with (2 * Zpos p) in Hle.
  replace (Zpos (Pos.size p)) with (Z.succ (Zpos (Pos.size p) - 1)) in Hle by lia.
  rewrite Z.pow_succ_r in Hle by lia. lia.
Qed.

Lemma digits_unique (p : positive) (d : Z) :
  2 ^ (d - 1) <= Zpos p < 2 ^ d -> Zpos (digits2_pos p) = d.
Proof.
  intros [Hlo Hhi]. pose proof (digits_bounds p) as [Hlo' Hhi'].
  assert (0 < d).
  { destruct (Z_lt_le_dec 0 d) as [|Hd]; [assumption|].
    destruct (Z.eq_dec d 0) as [->|]; [simpl in Hhi; lia|].
    rewrite Z.pow_neg_r in Hhi by lia. lia. }
  assert (Zpos (digits2_pos p) - 1 < d).
  { apply (Z.pow_lt_mono_r_iff 2); lia. }
  assert (d - 1 < Zpos (digits2_pos p)).
  { apply (Z.pow_lt_mono_r_iff 2); lia. }
  lia.
Qed.

Lemma digits_53 (p : positive) :
  2 ^ 52 <= Zpos p < 2 ^ 53 -> Zpos (digits2_pos p) = 53.
Proof. intros H. apply digits_unique. exact H. Qed.

Lemma digits_54 (p : positive) :
  2 ^ 53 <= Zpos p < 2 ^ 54 -> Zpos (digits2_pos p) = 54.
Proof. intros H. apply digits_unique. exact H. Qed.

Lemma iter_xO (p j : positive) :
  Zpos (Pos.iter xO p j) = Zpos p * 2 ^ Zpos j.
Proof.
  induction j as [|j IH] using Pos.peano_ind.
  - simpl. lia.
  - rewrite Pos.iter_succ, Pos2Z.inj_xO, IH, Pos2Z.inj_succ, Z.pow_succ_r; lia.
Qed.

Lemma fexp_normal (e : Z) : -1021 <= e -> fexp 53 1024 e = e - 53.
Proof. intros H. unfold fexp, emin. lia. Qed.

(** A 53-bit mantissa is not shifted; a 54-bit one is shifted once. *)
Lemma shr_fexp_53 (m : positive) (e : Z) (l : location) :
  2 ^ 52 <= Zpos m < 2 ^ 53 -> -1074 <= e ->
  shr_fexp 53 1024 (Zpos m) e l = (shr_record_of_loc (Zpos m) l, e).
Proof.
  intros Hm He. apply digits_53 in Hm.
  unfold shr_fexp. cbn [Zdigits2]. rewrite Hm.
  rewrite fexp_normal by lia. replace (53 + e - 53 - e) with 0 by lia.
  reflexivity.
Qed.

Lemma shr_fexp_54 (m : positive) (e : Z) (l : location) :
  2 ^ 53 <= Zpos m < 2 ^ 54 -> -1075 <= e ->
  shr_fexp 53 1024 (Zpos m) e l = (shr_1 (shr_record_of_loc (Zpos m) l), e + 1).
Proof.
  intros Hm He. apply digits_54 in Hm.
  unfold shr_fexp. cbn [Zdigits2]. rewrite Hm.
  rewrite fexp_normal by lia. replace (54 + e - 53 - e) with 1 by lia.
  reflexivity.
Qed.

Lemma loc_of_shr_record_of_loc (m : Z) (l : location) :
  loc_of_shr_record (shr_record_of_loc m l) = l.
Proof. destruct l as [|[]]; reflexivity. Qed.

Lemma shr_m_of_loc (m : Z) (l : location) : shr_m (shr_record_of_loc m l) = m.
Proof. destruct l as [|[]]; reflexivity. Qed.

(** The last step of rounding: a mantissa that reached 2^53 is renormalised. *)
Definition finish (m1 e1 : Z) : spec_float :=
  if m1 =? 2 ^ 53 then S754_finite false (2 ^ 52)%positive (e1 + 1)
  else S754_finite false (Z.to_pos m1) e1.

Lemma round_aux_finish (m1 e1 : Z) :
  2 ^ 52 <= m1 <= 2 ^ 53 -> -1074 <= e1 <= 970 ->
  (let '(mrs, e2) := shr_fexp 53 1024 m1 e1 loc_Exact in
   match shr_m mrs with
   | 0 => S754_zero false
   | Zpos m => if e2 <=? 1024 - 53 then S754_finite false m e2 else S754_infinity false
   | Zneg _ => S754_nan
   end) = finish m1 e1.
Proof.
  intros Hm He. unfold finish.
  destruct m1 as [|m|m]; try (exfalso; lia).
  destruct (Z.eqb_spec (Zpos m) (2 ^ 53)) as [E|E].
  - injection E as ->. rewrite shr_fexp_54 by lia. cbn [shr_record_of_loc shr_1 shr_m orb].
    destruct (Z.leb_spec (e1 + 1) (1024 - 53)); [reflexivity | lia].
  - rewrite shr_fexp_53 by lia. cbn [shr_record_of_loc shr_m].
    destruct (Z.leb_spec e1 (1024 - 53)); [reflexivity | lia].
Qed.

Lemma round_nearest_even_range (m : Z) (l : location) :
  m <= round_nearest_even m l <= m + 1.
Proof. destruct l as [|[]]; simpl; try lia. destruct (Z.even m); lia. Qed.

(** Rounding a 53-bit quotient, and a 54-bit one. *)
Lemma round_aux_53 (q e : Z) (l : location) :
  2 ^ 52 <= q < 2 ^ 53 -> -1074 <= e <= 970 ->
  binary_round_aux 53 1024 false q e l = finish (round_nearest_even q l) e.
Proof.
  intros Hq He. destruct q as [|q|q]; try (exfalso; lia).
  unfold binary_round_aux. rewrite shr_fexp_53 by lia.
  rewrite loc_of_shr_record_of_loc, shr_m_of_loc.
  apply round_aux_finish; [|lia].
  pose proof (round_nearest_even_range (Zpos q) l). lia.
Qed.

Lemma round_aux_54 (q e : Z) (l : location) :
  2 ^ 53 <= q < 2 ^ 54 -> -1075 <= e <= 969 ->
  binary_round_aux 53 1024 false q e l =
  let mrs := shr_1 (shr_record_of_loc q l) in
  finish (round_nearest_even (shr_m mrs) (loc_of_shr_record mrs)) (e + 1).
Proof.
  intros Hq He. destruct q as [|q|q]; try (exfalso; lia).
  unfold binary_round_aux. rewrite shr_fexp_54 by lia. cbv zeta.
  apply round_aux_finish; [|lia].
  pose proof (round_nearest_even_range
                (shr_m (shr_1 (shr_record_of_loc (Zpos q) l)))
                (loc_of_shr_record (shr_1 (shr_record_of_loc (Zpos q) l)))) as Hr.
  assert (2 ^ 52 <= shr_m (shr_1 (shr_record_of_loc (Zpos q) l)) < 2 ^ 53).
  { destruct l as [|[]]; destruct q as [q|q|]; cbn [shr_record_of_loc shr_1 shr_m];
      try (exfalso; lia); lia. }
  lia.
Qed.

(** Rounding leaves an exact 53-bit mantissa as it is. *)
Lemma round_aux_exact (m : positive) (e : Z) :
  2 ^ 52 <= Zpos m < 2 ^ 53 -> -1074 <= e <= 970 ->
  binary_round_aux 53 1024 false (Zpos m) e loc_Exact = S754_finite false m e.
Proof.
  intros Hm He. rewrite round_aux_53 by assumption.
  unfold finish. cbn [round_nearest_even].
  destruct (Z.eqb_spec (Zpos m) (2 ^ 53)); [lia | reflexivity].
Qed.

(** A positive integer below 2^53 converts exactly, to a 53-bit mantissa. *)
Lemma normalize_pos (p : positive) :
  Zpos p < 2 ^ 53 ->
  exists P a,
    binary_normalize 53 1024 (Zpos p) 0 false = S754_finite false P (- a) /\
    0 <= a <= 52 /\ Zpos P = Zpos p * 2 ^ a /\ 2 ^ 52 <= Zpos P < 2 ^ 53.
Proof.
  intros Hp. pose proof (digits_bounds p) as [Hlo Hhi].
  set (d := Zpos (digits2_pos p)) in *.
  assert (1 <= d) by (unfold d; lia).
  assert (d <= 53).
  { assert (d - 1 < 53); [|lia]. apply (Z.pow_lt_mono_r_iff 2); lia. }
  unfold binary_normalize, binary_round, shl_align. fold d.
  rewrite fexp_normal by lia.
  destruct (Z.eq_dec d 53) as [Hd|Hd].
  - rewrite Hd. change (53 + 0 - 53 - 0) with 0. cbv beta iota.
    exists p, 0. rewrite Hd in Hlo, Hhi.
    rewrite round_aux_exact by (simpl in *; lia).
    repeat split; simpl in *; lia.
  - replace (d + 0 - 53 - 0) with (Zneg (Z.to_pos (53 - d))) by lia.
    set (j := Z.to_pos (53 - d)).
    assert (Hj : Zpos j = 53 - d) by (unfold j; lia).
    assert (HP : Zpos (Pos.iter xO p j) = Zpos p * 2 ^ (53 - d))
      by (rewrite iter_xO, Hj; reflexivity).
    assert (2 ^ (d - 1) * 2 ^ (53 - d) = 2 ^ 52)
      by (rewrite <- Z.pow_add_r by lia; f_equal; lia).
    assert (2 ^ d * 2 ^ (53 - d) = 2 ^ 53)
      by (rewrite <- Z.pow_add_r by lia; f_equal; lia).
    assert (0 < 2 ^ (53 - d)) by (apply Z.pow_pos_nonneg; lia).
    assert (2 ^ 52 <= Zpos (Pos.iter xO p j) < 2 ^ 53) by (rewrite HP; nia).
    exists (Pos.iter xO p j), (53 - d).
    rewrite round_aux_exact by lia.
    repeat split; try lia. f_equal. lia.
Qed.

(** The quotient of two 53-bit mantissas before rounding. *)
Lemma div_normal (P N : positive) (a b : Z) :
  2 ^ 52 <= Zpos P < 2 ^ 53 -> 2 ^ 52 <= Zpos N < 2 ^ 53 ->
  0 <= a <= 52 -> 0 <= b <= 52 ->
  SFdiv 53 1024 (S754_finite false P (- a)) (S754_finite false N (- b)) =
  binary_round_aux 53 1024 false
    ((Zpos P * 2 ^ 53) / Zpos N) (b - a - 53)
    (new_location (Zpos N) ((Zpos P * 2 ^ 53) mod Zpos N)).
Proof.
  intros HP HN Ha Hb. unfold SFdiv, SFdiv_core_binary. cbn [xorb Zdigits2].
  rewrite (digits_53 P HP), (digits_53 N HN).
  rewrite fexp_normal by lia.
  replace (Z.min (53 + - a - (53 + - b) - 53) (- a - - b)) with (b - a - 53) by lia.
  replace (- a - - b - (b - a - 53)) with 53 by lia.
  rewrite Z.shiftl_mul_pow2 by lia.
  unfold Z.div, Z.modulo.
  destruct (Z.div_eucl (Zpos P * 2 ^ 53) (Zpos N)) as [q r]. reflexivity.
Qed.

Definition C04 : positive := 7205759403792794.
Definition two_fifths : spec_float := S754_finite false C04 (-54).

Lemma new_location_above_half (N r : Z) :
  0 < N -> N < 2 * r -> new_location N r = loc_Inexact Gt.
Proof.
  intros HN Hr. assert (Hr0 : (r =? 0) = false) by (apply Z.eqb_neq; lia).
  unfold new_location. destruct (Z.even N).
  - unfold new_location_even. rewrite Hr0.
    destruct (Z.compare_spec (2 * r) N); try lia; reflexivity.
  - unfold new_location_odd. rewrite Hr0.
    destruct (Z.compare_spec (2 * r + 1) N); try lia; reflexivity.
Qed.

Lemma shr_1_half (q : positive) (l : location) :
  let m := shr_m (shr_1 (shr_record_of_loc (Zpos q) l)) in
  2 * m <= Zpos q <= 2 * m + 1.
Proof.
  destruct l as [|[]]; destruct q as [q|q|]; cbn [shr_record_of_loc shr_1 shr_m]; lia.
Qed.

Lemma compare_cont_ltb (m c : positive) :
  match Pos.compare_cont Eq m c with Lt => true | _ => false end =
  (Zpos m <? Zpos c).
Proof. reflexivity. Qed.

Lemma SFltb_finish (m1 e1 : Z) :
  2 ^ 52 <= m1 <= 2 ^ 53 ->
  SFltb (finish m1 e1) two_fifths =
  (e1 <? -54) || ((e1 =? -54) && (m1 <? Zpos C04)).
Proof.
  intros Hm.
  unfold finish, two_fifths, SFltb, SFcompare.
  destruct (Z.eqb_spec m1 (2 ^ 53)) as [->|Hne].
  - destruct (Z.compare_spec (e1 + 1) (-54));
      destruct (Z.ltb_spec e1 (-54)); destruct (Z.eqb_spec e1 (-54));
      try lia.
    vm_compute. reflexivity.
    vm_compute. reflexivity.
  - destruct m1 as [|m|m]; try (exfalso; lia).
    cbn [Z.to_pos].
    clear Hm Hne. generalize C04 as c; intros c.
    destruct (Z.compare_spec e1 (-54));
      destruct (Z.ltb_spec e1 (-54)); destruct (Z.eqb_spec e1 (-54));
      try lia; cbn [orb andb]; reflexivity.
Qed.

Lemma C04_five : 5 * Zpos C04 = 2 ^ 55 + 2.
Proof. reflexivity. Qed.

Lemma pow2_le (a b : Z) : 0 <= a <= b -> 2 ^ a <= 2 ^ b.
Proof. intros. apply Z.pow_le_mono_r; lia. Qed.

Lemma pow2_shift (b d : Z) : 0 <= b -> 0 <= d -> 2 ^ (b + d) = 2 ^ d * 2 ^ b.
Proof. intros. rewrite Z.pow_add_r by assumption. lia. Qed.

(** The arithmetic of the two binades that contain 2/5. *)
Lemma near_case (C K M u q r m1 : Z) :
  5 * C = 2 ^ 55 + 2 -> 0 < K -> 0 < M -> 2 <= u ->
  2 * K * u * 2 ^ 53 = M * u * q + r -> 0 <= r < M * u ->
  M * u < 2 ^ 53 ->
  q <= m1 <= q + 1 ->
  (M * u < 2 * r -> m1 = q + 1) ->
  (m1 <? C) = (5 * K <? 2 * M).
Proof.
  intros HC HK HM Hu Hdiv Hr HN Hm Hup.
  destruct (Z.ltb_spec (5 * K) (2 * M)) as [H|H];
    [apply Z.ltb_lt | apply Z.ltb_ge].
  - (* 2M - 5K >= 1 *)
    assert (5 * r + 2 * (M * u) + 2 ^ 54 * u * (2 * M - 5 * K) = 5 * (C - q) * (M * u)) by nia.
    assert (q <= C - 2) by nia. lia.
  - assert (5 * r + 2 * (M * u) = 5 * (C - q) * (M * u) + 2 ^ 54 * u * (5 * K - 2 * M)) by nia.
    destruct (Z_lt_le_dec q C) as [Hq|Hq]; [|lia].
    assert (q = C - 1) by nia. subst q.
    assert (M * u < 2 * r) by nia. specialize (Hup ltac:(assumption)). lia.
Qed.

Lemma near_case_shifted (C K M u q r m m1 : Z) :
  5 * C = 2 ^ 55 + 2 -> 0 < K -> 0 < M -> 2 <= u ->
  4 * K * u * 2 ^ 53 = M * u * q + r -> 0 <= r < M * u ->
  M * u < 2 ^ 53 ->
  2 * m <= q <= 2 * m + 1 -> m <= m1 <= m + 1 ->
  (q = 2 * m -> m1 = m) ->
  (q = 2 * m + 1 -> Z.even m = false -> m1 = m + 1) ->
  (m1 <? C) = (5 * K <? 2 * M).
Proof.
  intros HC HK HM Hu Hdiv Hr HN Hq Hm Heven Hodd.
  destruct (Z.ltb_spec (5 * K) (2 * M)) as [H|H];
    [apply Z.ltb_lt | apply Z.ltb_ge].
  - assert (5 * r + 4 * (M * u) + 2 ^ 55 * u * (2 * M - 5 * K)
            = 5 * (2 * C - q) * (M * u)) by nia.
    assert (q <= 2 * C - 2) by nia.
    destruct (Z_lt_le_dec m (C - 1)) as [Hm'|Hm']; [lia|].
    assert (q = 2 * m) by lia. specialize (Heven ltac:(assumption)). lia.
  - assert (5 * r + 4 * (M * u)
            = 5 * (2 * C - q) * (M * u) + 2 ^ 55 * u * (5 * K - 2 * M)) by nia.
    assert (2 * C - 1 <= q) by nia.
    destruct (Z_lt_le_dec m C) as [Hm'|Hm']; [|lia].
    assert (m = C - 1) by lia. assert (q = 2 * m + 1) by lia.
    assert (Z.even m = false).
    { assert (m = 7205759403792793) as -> by lia. vm_compute. reflexivity. }
    specialize (Hodd ltac:(assumption) ltac:(assumption)). lia.
Qed.

Lemma shr_round (q : positive) (l : location) :
  let mrs := shr_1 (shr_record_of_loc (Zpos q) l) in
  let m := shr_m mrs in
  let m1 := round_nearest_even m (loc_of_shr_record mrs) in
  2 * m <= Zpos q <= 2 * m + 1 /\ m <= m1 <= m + 1 /\
  (Zpos q = 2 * m -> m1 = m) /\
  (Zpos q = 2 * m + 1 -> Z.even m = false -> m1 = m + 1).
Proof.
  destruct l as [|[]]; destruct q as [q|q|];
    cbn [shr_record_of_loc shr_1 shr_m loc_of_shr_record orb round_nearest_even];
    repeat split; try lia;
    try (destruct (Z.even (Zpos q)); lia);
    try (intros _ ->; lia); try (intros _ H; cbn in H; discriminate H);
    cbn; lia.
Qed.

Lemma quotient_lt_two_fifths (k n : positive) :
  Zpos k < 2 ^ 32 -> Zpos n < 2 ^ 32 ->
  SFltb (SFdiv 53 1024 (binary_normalize 53 1024 (Zpos k) 0 false)
                       (binary_normalize 53 1024 (Zpos n) 0 false))
        two_fifths =
  (5 * Zpos k <? 2 * Zpos n).
Proof.
  intros Hk Hn.
  destruct (normalize_pos k) as (P & a & -> & Ha & HP & HPb); [lia|].
  destruct (normalize_pos n) as (N & b & -> & Hb & HN & HNb); [lia|].
  rewrite div_normal by assumption.
  set (q := Zpos P * 2 ^ 53 / Zpos N).
  set (r := (Zpos P * 2 ^ 53) mod Zpos N).
  assert (Hdiv : Zpos P * 2 ^ 53 = Zpos N * q + r) by (apply Z.div_mod; lia).
  assert (Hr : 0 <= r < Zpos N) by (apply Z.mod_pos_bound; lia).
  assert (Hloc : Zpos N < 2 * r -> new_location (Zpos N) r = loc_Inexact Gt)
    by (apply new_location_above_half; lia).
  generalize dependent (new_location (Zpos N) r). intros loc Hloc.
  clearbody q r.
  assert (Hq : 2 ^ 52 <= q < 2 ^ 54) by nia.
  pose proof C04_five as HC. unfold two_fifths.
  assert (HK0 : 0 < Zpos k) by lia. assert (HM0 : 0 < Zpos n) by lia.
  assert (Hb21 : 21 <= b).
  { destruct (Z_lt_le_dec b 21) as [Hlt|]; [|assumption].
    assert (2 ^ b <= 2 ^ 20) by (apply pow2_le; lia).
    assert (0 < 2 ^ b) by (apply Z.pow_pos_nonneg; lia). nia. }
  assert (Hu : 2 <= 2 ^ b).
  { change 2 with (2 ^ 1) at 1. apply pow2_le. lia. }
  assert (Hv : 0 < 2 ^ a) by (apply Z.pow_pos_nonneg; lia).
  fold two_fifths.
  destruct (Z_lt_le_dec q (2 ^ 53)) as [Hq53|Hq53].
  - rewrite round_aux_53 by lia.
    pose proof (round_nearest_even_range q loc) as Hm1.
    rewrite SFltb_finish by lia.
    assert (HPN : Zpos P < Zpos N) by nia.
    destruct (Z_lt_le_dec (b + 1) a) as [Hab|Hab];
      [|destruct (Z_lt_le_dec b a) as [Hab'|Hab']].
    + (* a >= b + 2 *)
      destruct (Z.ltb_spec (b - a - 53) (-54)); [|lia]. cbn [orb].
      symmetry. apply Z.ltb_lt.
      assert (2 ^ a = 2 ^ (a - b) * 2 ^ b)
        by (rewrite <- pow2_shift by lia; f_equal; lia).
      assert (2 ^ 2 <= 2 ^ (a - b)) by (apply pow2_le; lia).
      nia.
    + (* a = b + 1 *)
      assert (a = b + 1) by lia. subst a.
      replace (b - (b + 1) - 53) with (-54) by lia.
      change (-54 <? -54) with false. change (-54 =? -54) with true.
      cbn [orb andb].
      rewrite (pow2_shift b 1) in HP by lia. change (2 ^ 1) with 2 in HP.
      rewrite HN in Hdiv, Hr, HNb, Hloc. rewrite HP in Hdiv.
      apply (near_case _ _ _ (2 ^ b) q r); try assumption; try lia.
      intros H2r. rewrite Hloc by lia. reflexivity.
    + (* a <= b *)
      destruct (Z.ltb_spec (b - a - 53) (-54)); [lia|].
      destruct (Z.eqb_spec (b - a - 53) (-54)); [lia|]. cbn [orb andb].
      symmetry. apply Z.ltb_ge.
      assert (2 ^ b = 2 ^ (b - a) * 2 ^ a)
        by (rewrite <- pow2_shift by lia; f_equal; lia).
      assert (2 ^ 0 <= 2 ^ (b - a)) by (apply pow2_le; lia).
      nia.
  - destruct q as [|q|q]; try (exfalso; lia).
    rewrite round_aux_54 by lia. cbv zeta.
    pose proof (shr_round q loc) as (Hm & Hm1 & Heven & Hodd).
    set (m := shr_m (shr_1 (shr_record_of_loc (Zpos q) loc))) in *.
    set (m1 := round_nearest_even m _) in *. clearbody m1 m.
    rewrite SFltb_finish by lia.
    assert (HPN : Zpos N <= Zpos P) by nia.
    destruct (Z_lt_le_dec (b + 2) a) as [Hab|Hab];
      [|destruct (Z_lt_le_dec (b + 1) a) as [Hab'|Hab']].
    + (* a >= b + 3 *)
      destruct (Z.ltb_spec (b - a - 53 + 1) (-54)); [|lia]. cbn [orb].
      symmetry. apply Z.ltb_lt.
      assert (2 ^ a = 2 ^ (a - b) * 2 ^ b)
        by (rewrite <- pow2_shift by lia; f_equal; lia).
      assert (2 ^ 3 <= 2 ^ (a - b)) by (apply pow2_le; lia).
      nia.
    + (* a = b + 2 *)
      assert (a = b + 2) by lia. subst a.
      replace (b - (b + 2) - 53 + 1) with (-54) by lia.
      change (-54 <? -54) with false. change (-54 =? -54) with true.
      cbn [orb andb].
      rewrite (pow2_shift b 2) in HP by lia. change (2 ^ 2) with 4 in HP.
      rewrite HN in Hdiv, Hr, HNb. rewrite HP in Hdiv.
      apply (near_case_shifted _ _ _ (2 ^ b) (Zpos q) r m); try assumption; try lia.
    + (* a <= b + 1 *)
      destruct (Z.ltb_spec (b - a - 53 + 1) (-54)); [lia|].
      destruct (Z.eqb_spec (b - a - 53 + 1) (-54)); [lia|]. cbn [orb andb].
      symmetry. apply Z.ltb_ge.
      assert (2 ^ (b + 1) = 2 ^ (b + 1 - a) * 2 ^ a)
        by (rewrite <- pow2_shift by lia; f_equal; lia).
      assert (2 ^ 0 <= 2 ^ (b + 1 - a)) by (apply pow2_le; lia).
      rewrite (pow2_shift b 1) in * by lia. change (2 ^ 1) with 2 in *.
      nia.
Qed.

(** A length below 2^63 as a JavaScript number. *)
Lemma num_spec (n : nat) :
  Z.of_nat n < 2 ^ 63 ->
  Prim2SF (ScoringEngine.num n) = binary_normalize 53 1024 (Z.of_nat n) 0 false.
Proof.
  intros Hn. unfold ScoringEngine.num.
  rewrite of_uint63_spec, Uint63.of_Z_spec.
  rewrite Z.mod_small; [reflexivity|].
  change wB with (2 ^ 63). lia.
Qed.

(** The comparison made by the drift detector is the exact one. *)
Lemma ratio_below_two_fifths (k n : nat) :
  (0 < n)%nat -> Z.of_nat n < 2 ^ 32 -> (k <= n)%nat ->
  (ScoringEngine.num k / ScoringEngine.num n <? 0x1.999999999999ap-2)%float =
  (5 * Z.of_nat k <? 2 * Z.of_nat n).
Proof.
  intros Hn0 Hn Hk.
  rewrite ltb_spec, div_spec, !num_spec by lia.
  change (Prim2SF 0x1.999999999999ap-2%float) with two_fifths.
  change (SF64div ?x ?y) with (SFdiv 53 1024 x y).
  destruct (Z.of_nat n) as [|pn|pn] eqn:En; try lia.
  destruct (Z.of_nat k) as [|pk|pk] eqn:Ek; try lia.
  - destruct (normalize_pos pn) as (N & b & -> & _); [lia|]. reflexivity.
  - apply quotient_lt_two_fifths; lia.
Qed.

End Binary64.

(** ** Drift *)

Section Drift.

Import DriftDetector.

(** The original keywords that are also keywords of the refined text, each
    occurrence counted. *)
Definition kept (original refined : string) : list string :=
  List.filter (fun kw => bool_decide (kw ∈ extractKeywords refined))
    (extractKeywords original).

Lemma kept_overlap (original refined : string) :
  List.filter
    (fun kw => bool_decide (kw ∈ (list_to_set (extractKeywords refined) : gset string)))
    (extractKeywords original) = kept original refined.
Proof.
  unfold kept. apply List.filter_ext. intros kw.
  apply bool_decide_ext. apply elem_of_list_to_set.
Qed.

Lemma kept_length (original refined : string) :
  length (kept original refined) <= length (extractKeywords original).
Proof. apply List.filter_length_le. Qed.

(** The text of the warning for a given number of kept keywords. *)
Definition warningFor (k n : nat) : string :=
  "Intent drift detected: only " ++
  toString (Math_round (ScoringEngine.num k / ScoringEngine.num n * 100)%float) ++
  "% of original keywords are preserved in the refined prompt. " ++
  "The refinement may have altered your original intent.".

(** [detectByRules] by cases on the keyword counts. *)
Lemma detectByRules_cases (original refined : string) :
  let n := length (extractKeywords original) in
  let k := length (kept original refined) in
  detectByRules original refined =
    if (n =? 0)%nat then mkDriftResult false ""
    else if (ScoringEngine.num k / ScoringEngine.num n <? 0x1.999999999999ap-2)%float
         then mkDriftResult true (warningFor k n)
         else mkDriftResult false "".
Proof. unfold detectByRules. rewrite kept_overlap. reflexivity. Qed.

End Drift.

(** C6.  When the original text has no keyword, [detectDrift] returns no
    drift and an empty warning.  Otherwise (an array holds fewer than 2^32
    keywords) drift is detected exactly when the fraction of original
    keywords, each occurrence counted, that are keywords of the refined
    text is strictly below 2/5.  The warning is non-empty exactly when
    drift is detected, and then it embeds the rounded percentage. *)
Theorem drift_detected_iff_below_threshold (original refined : string) :
  let orig := DriftDetector.extractKeywords original in
  let k := length (kept original refined) in
  let r := DriftDetector.detect original refined in
  (orig = [] -> r = DriftDetector.mkDriftResult false "") /\
  (orig <> [] -> (Z.of_nat (length orig) < 2 ^ 32)%Z ->
   (DriftDetector.driftDetected r = true <-> 5 * k < 2 * length orig)) /\
  (DriftDetector.driftDetected r = true <-> DriftDetector.driftWarning r <> "") /\
  (DriftDetector.driftDetected r = true ->
   DriftDetector.driftWarning r = warningFor k (length orig)).
Proof.
  intros orig k r. unfold r, DriftDetector.detect.
  rewrite detectByRules_cases. cbv zeta. fold orig. fold k.
  split; [|split; [|split]].
  - intros ->. reflexivity.
  - intros Hne Hlen.
    destruct (Nat.eqb_spec (length orig) 0) as [E|E];
      [destruct orig; [contradiction | discriminate E]|].
    rewrite ratio_below_two_fifths by (try apply kept_length; lia).
    destruct (Z.ltb_spec (5 * Z.of_nat k) (2 * Z.of_nat (length orig)));
      cbn [DriftDetector.driftDetected]; split; intros; try lia; try discriminate; reflexivity.
  - destruct (length orig =? 0)%nat; [|destruct (_ <? _)%float];
      cbn [DriftDetector.driftDetected DriftDetector.driftWarning];
      split; intros H; try discriminate H; try reflexivity; try (contradiction H; reflexivity).
    unfold warningFor. discriminate.
  - destruct (length orig =? 0)%nat; [|destruct (_ <? _)%float];
      cbn [DriftDetector.driftDetected DriftDetector.driftWarning];
      intros H; try discriminate H; reflexivity.
Qed.

(** * Further properties of the services *)

(** ** Scoring *)

Lemma score_ignores_gaps (text : string) (gaps gaps' : list string) :
  ScoringEngine.clarity (ScoringEngine.scoreByRules text gaps') =
    ScoringEngine.clarity (ScoringEngine.scoreByRules text gaps) /\
  ScoringEngine.specificity (ScoringEngine.scoreByRules text gaps') =
    ScoringEngine.specificity (ScoringEngine.scoreByRules text gaps) /\
  ScoringEngine.intentAlignment (ScoringEngine.scoreByRules text gaps') =
    ScoringEngine.intentAlignment (ScoringEngine.scoreByRules text gaps).
Proof. repeat split; reflexivity. Qed.

Lemma completeness_antitone (text : string) (gaps gaps' : list string) :
  length gaps <= length gaps' ->
  (ScoringEngine.completeness (ScoringEngine.scoreByRules text gaps') <=
   ScoringEngine.completeness (ScoringEngine.scoreByRules text gaps))%Z.
Proof.
  intros Hlen. unfold ScoringEngine.scoreByRules; cbv zeta.
  cbn [ScoringEngine.completeness].
  repeat match goal with
         | |- context [if ?b then _ else _] => destruct b
         end; lia.
Qed.

(** X1.  The sub-scores never leave narrower ranges than the nominal 0..10:
    clarity is in 1..9, completeness in 1..10, specificity in 3..10, intent
    alignment in 2..9, and the total in 7..38. *)
Theorem score_ranges (text : string) (gaps : list string) :
  let c := ScoringEngine.score text gaps in
  (1 <= ScoringEngine.clarity c <= 9 /\
   1 <= ScoringEngine.completeness c <= 10 /\
   3 <= ScoringEngine.specificity c <= 10 /\
   2 <= ScoringEngine.intentAlignment c <= 9 /\
   7 <= ScoringEngine.total c <= 38)%Z.
Proof.
  intros c. unfold c, ScoringEngine.score.
  pose proof (clarity_range text gaps).
  pose proof (completeness_range text gaps).
  pose proof (specificity_range text gaps).
  pose proof (intentAlignment_range text gaps).
  pose proof (total_sum text gaps) as Hsum. cbv zeta in Hsum.
  repeat split; lia.
Qed.

(** X2.  Only completeness looks at the gaps, and only at their number: with
    more gaps the completeness and the total can only go down, and the
    other three sub-scores stay as they are. *)
Theorem score_antitone_in_gaps (text : string) (gaps gaps' : list string) :
  length gaps <= length gaps' ->
  let c := ScoringEngine.score text gaps in
  let c' := ScoringEngine.score text gaps' in
  ScoringEngine.clarity c' = ScoringEngine.clarity c /\
  ScoringEngine.specificity c' = ScoringEngine.specificity c /\
  ScoringEngine.intentAlignment c' = ScoringEngine.intentAlignment c /\
  (ScoringEngine.completeness c' <= ScoringEngine.completeness c)%Z /\
  (ScoringEngine.total c' <= ScoringEngine.total c)%Z.
Proof.
  intros Hlen c c'. unfold c, c', ScoringEngine.score.
  pose proof (total_sum text gaps) as Hsum.
  pose proof (total_sum text gaps') as Hsum'. cbv zeta in Hsum, Hsum'.
  pose proof (score_ignores_gaps text gaps gaps') as (Hc & Hs & Hi).
  pose proof (completeness_antitone text gaps gaps' Hlen).
  repeat split; try assumption; lia.
Qed.

Lemma score_antitone_in_gaps_witness :
  (ScoringEngine.total (ScoringEngine.score "fix it" ["language"; "level"]) <=
   ScoringEngine.total (ScoringEngine.score "fix it" ["language"]))%Z.
Proof.
  refine (proj2 (proj2 (proj2 (proj2
    (score_antitone_in_gaps "fix it" ["language"] ["language"; "level"] _))))).
  simpl. lia.
Defined.

(** ** Letter case *)

Lemma toLowerChar_idempotent (c : ascii) :
  JS.toLowerChar (JS.toLowerChar c) = JS.toLowerChar c.
Proof.
  apply Ascii.eqb_eq.
  apply (forall_ascii
           (fun c => Ascii.eqb (JS.toLowerChar (JS.toLowerChar c)) (JS.toLowerChar c))).
  vm_compute. reflexivity.
Qed.

Lemma toLowerCase_idempotent (s : string) :
  JS.toLowerCase (JS.toLowerCase s) = JS.toLowerCase s.
Proof.
  induction s as [|c s IH]; simpl; [reflexivity|].
  rewrite toLowerChar_idempotent, IH. reflexivity.
Qed.

(** X3.  Intent, gaps and keywords do not depend on letter case: two texts with
    the same lowercase form get the same intent, the same gaps and
    suggestions, and the same keywords; in particular a text and its
    lowercase form do. *)
Theorem services_ignore_case (text text' : string) :
  JS.toLowerCase text = JS.toLowerCase text' ->
  IntentDetector.detect text = IntentDetector.detect text' /\
  ConstraintDetector.detect text = ConstraintDetector.detect text' /\
  DriftDetector.extractKeywords text = DriftDetector.extractKeywords text' /\
  IntentDetector.detect (JS.toLowerCase text) = IntentDetector.detect text /\
  ConstraintDetector.detect (JS.toLowerCase text) = ConstraintDetector.detect text /\
  DriftDetector.extractKeywords (JS.toLowerCase text) =
    DriftDetector.extractKeywords text.
Proof.
  intros H.
  unfold IntentDetector.detect, IntentDetector.detectByRules,
    ConstraintDetector.detect, ConstraintDetector.detectByRules,
    DriftDetector.extractKeywords.
  rewrite !toLowerCase_idempotent, H. repeat split; reflexivity.
Qed.

Lemma services_ignore_case_witness :
  IntentDetector.detect "FIX THE BUG" = IntentDetector.detect "fix the bug".
Proof.
  refine (proj1 (services_ignore_case "FIX THE BUG" "fix the bug" _)).
  reflexivity.
Defined.

(** ** Intents *)

Section IntentShape.

Import IntentDetector.

Definition INTENTS : list string :=
  ["code_generation"; "explanation"; "debugging"; "creative_writing";
   "data_analysis"; "summarization"; "translation"; "comparison";
   "instruction"; "general"].

Lemma scanRules_shape (lower : string) (rules : list Rule) :
  let i := scanRules lower rules in
  (detected i = "general" /\ confidence i = "low" /\
   Forall (fun r => ~ fires lower r) rules \/
   (exists r, In r rules /\ fires lower r /\ detected i = intent r) /\
   confidence i = "medium") /\
  source i = "rule".
Proof.
  induction rules as [|r rules IH]; simpl.
  - split; [left; repeat split; constructor | reflexivity].
  - destruct (scanKeywords lower (keywords r)) eqn:E.
    + apply scanKeywords_fires in E. simpl. split; [right|reflexivity].
      split; [|reflexivity]. exists r. auto.
    + destruct IH as [[(Hd & Hc & Hall) | [(r' & Hin & Hf & Hd) Hc]] Hs];
        (split; [|exact Hs]); [left | right].
      * repeat split; try assumption. constructor; [|exact Hall].
        intros Hf. apply scanKeywords_fires in Hf. congruence.
      * split; [|exact Hc]. exists r'. auto.
Qed.

End IntentShape.

Lemma detect_shape (text : string) :
  let i := IntentDetector.detect text in
  In (IntentDetector.detected i) INTENTS /\
  IntentDetector.source i = "rule" /\
  (IntentDetector.detected i = "general" <->
   IntentDetector.confidence i = "low") /\
  (IntentDetector.detected i <> "general" <->
   IntentDetector.confidence i = "medium") /\
  (IntentDetector.detected i = "general" <->
   Forall (fun r => ~ fires (JS.toLowerCase text) r) IntentDetector.INTENT_RULES).
Proof.
  intros i. unfold i, IntentDetector.detect, IntentDetector.detectByRules.
  pose proof (scanRules_shape (JS.toLowerCase text) IntentDetector.INTENT_RULES)
    as [Hshape Hsrc]. cbv zeta in Hshape, Hsrc.
  assert (Hnames : forall r, In r IntentDetector.INTENT_RULES ->
            In (IntentDetector.intent r) INTENTS /\
            IntentDetector.intent r <> "general").
  { intros r Hr. simpl in Hr.
    repeat (destruct Hr as [<-|Hr]; [split; [simpl; tauto | discriminate]|]).
    contradiction. }
  destruct Hshape as [(Hd & Hc & Hall) | [(r & Hin & Hf & Hd) Hc]];
    rewrite ?Hd, ?Hc.
  - split; [simpl; tauto|]. split; [exact Hsrc|].
    split; [tauto|]. split; [split; [congruence | discriminate]|].
    split; [intros _; exact Hall | reflexivity].
  - destruct (Hnames r Hin) as [Hn Hg].
    split; [exact Hn|]. split; [exact Hsrc|].
    split; [split; [contradiction | discriminate]|].
    split; [tauto|].
    split; [contradiction|].
    intros Hall. exfalso. rewrite List.Forall_forall in Hall. exact (Hall r Hin Hf).
Qed.

(** X4.  The rule-based intent is always well formed: [detected] is one of the
    ten intent names and [source] is rule; [confidence] is low exactly when
    [detected] is general, which happens exactly when no rule fires, and
    medium otherwise. *)
Theorem intent_well_formed (text : string) :
  let i := IntentDetector.detect text in
  In (IntentDetector.detected i) INTENTS /\
  IntentDetector.source i = "rule" /\
  (IntentDetector.detected i = "general" <->
   IntentDetector.confidence i = "low") /\
  (IntentDetector.detected i <> "general" <->
   IntentDetector.confidence i = "medium") /\
  (IntentDetector.detected i = "general" <->
   Forall (fun r => ~ fires (JS.toLowerCase text) r) IntentDetector.INTENT_RULES).
Proof. exact (detect_shape text). Qed.

(** ** Warnings, continued *)

(** The messages in their fixed priority order, for a given list of gaps. *)
Definition PRIORITY (gaps : list string) : list WarningGenerator.Warning :=
  [WarningGenerator.HighHallucinationRisk;
   WarningGenerator.ModerateHallucinationRisk;
   WarningGenerator.MostConstraintsMissing;
   WarningGenerator.MissingConstraints (WarningGenerator.join ", " gaps);
   WarningGenerator.LowClarity;
   WarningGenerator.UnclearIntent;
   WarningGenerator.LowConfidence;
   WarningGenerator.LowQuality].

Lemma NoDup_PRIORITY (gaps : list string) : NoDup (PRIORITY gaps).
Proof.
  apply NoDup_ListNoDup. unfold PRIORITY.
  repeat constructor; simpl; intuition discriminate.
Qed.

Ltac case_tests :=
  repeat match goal with
         | |- context [Z.leb ?a ?b] => destruct (Z.leb_spec a b)
         | |- context [String.eqb ?a ?b] => destruct (String.eqb_spec a b)
         end.

Lemma generate_sublist scores gaps intent :
  WarningGenerator.generate scores gaps intent `sublist_of` PRIORITY gaps.
Proof.
  unfold WarningGenerator.generate, PRIORITY; cbv zeta.
  case_tests; simpl; repeat constructor.
Qed.

Lemma generate_length scores gaps intent :
  length (WarningGenerator.generate scores gaps intent) <= 6.
Proof.
  unfold WarningGenerator.generate; cbv zeta.
  case_tests; simpl; lia.
Qed.

Lemma generate_constraints scores gaps intent :
  (In WarningGenerator.MostConstraintsMissing
     (WarningGenerator.generate scores gaps intent) <-> 4 <= length gaps) /\
  (forall names,
     In (WarningGenerator.MissingConstraints names)
        (WarningGenerator.generate scores gaps intent) <->
     names = WarningGenerator.join ", " gaps /\ 2 <= length gaps < 4).
Proof.
  unfold WarningGenerator.generate; cbv zeta.
  case_tests; simpl; (split; [|intros names]); split; intros Hx;
    first [ lia
          | intuition (first [discriminate | congruence | lia])
          | destruct Hx as [-> Hx]; intuition lia ].
Qed.

Lemma generate_confidence scores gaps intent :
  In WarningGenerator.LowConfidence (WarningGenerator.generate scores gaps intent) <->
  IntentDetector.confidence intent = "low".
Proof.
  unfold WarningGenerator.generate; cbv zeta.
  case_tests; simpl; split; intros Hx;
    first [ assumption | contradiction | intuition discriminate | tauto ].
Qed.

(** X5.  The warnings come in the fixed priority order, each at most once, and
    there are never more than six; the two messages about missing
    constraints exclude each other: the summary appears from four gaps on,
    the list of the gap names, joined by ", ", for two or three gaps. *)
Theorem warnings_in_priority_order
    (scores : ScoringEngine.ScoreCard) (gaps : list string)
    (intent : IntentDetector.Intent) :
  let ws := WarningGenerator.generate scores gaps intent in
  ws `sublist_of` PRIORITY gaps /\
  NoDup ws /\
  length ws <= 6 /\
  (In WarningGenerator.MostConstraintsMissing ws <-> 4 <= length gaps) /\
  (forall names,
     In (WarningGenerator.MissingConstraints names) ws <->
     names = WarningGenerator.join ", " gaps /\ 2 <= length gaps < 4).
Proof.
  intros ws. unfold ws.
  split; [apply generate_sublist|].
  split; [eapply sublist_NoDup; [apply NoDup_PRIORITY | apply generate_sublist]|].
  split; [apply generate_length|].
  apply generate_constraints.
Qed.

(** ** Gaps, continued *)

Section GapsClosedForm.

Import ConstraintDetector.

(** The verdict of [detectByRules] on a category, by name. *)
Definition verdict (lower cat : string) : bool :=
  if String.eqb cat "language" then hasLanguage lower
  else if String.eqb cat "level" then hasLevel lower
  else if String.eqb cat "output_format" then hasFormat lower
  else if String.eqb cat "scope" then hasScope lower
  else hasExamples lower.

(** [DEFAULT_SUGGESTIONS[cat]] for a category name. *)
Definition defaultChips (cat : string) : list string :=
  if String.eqb cat "language" then language DEFAULT_SUGGESTIONS
  else if String.eqb cat "level" then level DEFAULT_SUGGESTIONS
  else if String.eqb cat "output_format" then output_format DEFAULT_SUGGESTIONS
  else if String.eqb cat "scope" then scope DEFAULT_SUGGESTIONS
  else examples DEFAULT_SUGGESTIONS.

Lemma assemble_closed_form (l v f s e : bool) :
  gaps (assemble l v f s e) =
    List.filter
      (fun cat =>
         negb (if String.eqb cat "language" then l
               else if String.eqb cat "level" then v
               else if String.eqb cat "output_format" then f
               else if String.eqb cat "scope" then s
               else e))
      CATEGORIES /\
  forall cat,
    suggestions (assemble l v f s e) !! cat =
      if bool_decide (cat ∈ gaps (assemble l v f s e))
      then Some (defaultChips cat) else None.
Proof.
  split; [destruct l, v, f, s, e; reflexivity|].
  intros cat. unfold assemble, check.
  destruct l, v, f, s, e; cbn [negb gaps suggestions app];
    rewrite ?lookup_insert, ?lookup_empty;
    repeat (case_decide; [subst cat; reflexivity|]);
    (rewrite bool_decide_eq_false_2; [reflexivity|]);
    rewrite ?elem_of_cons, ?elem_of_nil; intuition congruence.
Qed.

End GapsClosedForm.

(** X6.  The gaps are exactly the categories not judged present, in the fixed
    order, and the suggestions map holds, for each gap and for nothing
    else, that category's default list. *)
Theorem gaps_are_the_absent_categories (text : string) :
  let d := ConstraintDetector.detect text in
  ConstraintDetector.gaps d =
    List.filter (fun cat => negb (verdict (JS.toLowerCase text) cat)) CATEGORIES /\
  forall cat,
    ConstraintDetector.suggestions d !! cat =
      if bool_decide (cat ∈ ConstraintDetector.gaps d)
      then Some (defaultChips cat) else None.
Proof.
  intros d. unfold d, ConstraintDetector.detect.
  rewrite detectByRules_assemble. cbv zeta.
  apply assemble_closed_form.
Qed.

(** ** Escaping *)

Section Escaping.

Lemma append_nil_r (s : string) : s ++ "" = s.
Proof. induction s as [|c s IH]; [reflexivity|]. rewrite append_cons, IH. reflexivity. Qed.

Lemma compile_escapeRegex (lit : string) :
  JS.compile (JS.escapeRegex lit) = Some (chars lit).
Proof.
  rewrite <- (append_nil_r (JS.escapeRegex lit)), compile_escaped.
  simpl. rewrite app_nil_r. reflexivity.
Qed.

(** Without the [i] flag a run of literal atoms consumes the literal itself. *)
Lemma matchHere_chars_exact (lit : string) (rest : list JS.atom)
    (prev : option ascii) (s : string) :
  JS.matchHere false (chars lit ++ rest) prev s = true <->
  exists post,
    s = lit ++ post /\ JS.matchHere false rest (lastFrom prev lit) post = true.
Proof.
  revert prev s. induction lit as [|c lit IH]; intros prev s.
  - simpl. split.
    + intros H. exists s. split; [reflexivity | exact H].
    + intros (post & -> & H). exact H.
  - change (chars (String c lit) ++ rest)%list
      with (JS.Char c :: (chars lit ++ rest))%list.
    cbn [JS.matchHere]. destruct s as [|d s].
    + split; [discriminate | intros (post & Hs & _); discriminate Hs].
    + rewrite andb_true_iff, IH, Ascii.eqb_eq. split.
      * intros (-> & post & -> & H). exists post. split; [reflexivity | exact H].
      * intros (post & Hs & H). rewrite append_cons in Hs.
        injection Hs as -> ->. split; [reflexivity|]. exists post. auto.
Qed.

End Escaping.

(** X7.  [escapeRegex] makes any string, whatever syntax characters it holds, a
    pattern for itself: the escaped source always compiles, and the pattern
    accepts exactly the texts that contain the string (with the [i] flag:
    a string equal to it up to case folding). *)
Theorem escapeRegex_matches_literally (lit s : string) :
  exists re,
    JS.compile (JS.escapeRegex lit) = Some re /\
    (JS.test false re s = true <-> occursIn lit s) /\
    (JS.test true re s = true <-> exists mid, foldEq mid lit /\ occursIn mid s).
Proof.
  exists (chars lit). split; [apply compile_escapeRegex|].
  unfold JS.test. rewrite !searchFrom_split. split; split.
  - intros (pre & rest & -> & H).
    rewrite <- (app_nil_r (chars lit)) in H.
    apply matchHere_chars_exact in H as (post & -> & _). exists pre, post. reflexivity.
  - intros (pre & post & ->). exists pre, (lit ++ post). split; [reflexivity|].
    rewrite <- (app_nil_r (chars lit)). apply matchHere_chars_exact.
    exists post. split; reflexivity.
  - intros (pre & rest & -> & H).
    rewrite <- (app_nil_r (chars lit)) in H.
    apply matchHere_chars in H as (mid & post & -> & Hfold & _).
    exists mid. split; [exact Hfold|]. exists pre, post. reflexivity.
  - intros (mid & Hfold & pre & post & ->). exists pre, (mid ++ post).
    split; [reflexivity|].
    rewrite <- (app_nil_r (chars lit)). apply matchHere_chars.
    exists mid, post. repeat split. exact Hfold.
Qed.

(** ** Keywords and drift, continued *)

Section Keywords.

Import DriftDetector.

Definition alphanumeric (c : ascii) : bool := JS.isLower c || JS.isDigit c.

Definition unitsOf (s : string) : list ascii := list_ascii_of_string s.

Lemma unitsOf_append_one (s : string) (c : ascii) :
  unitsOf (s ++ String c "") = (unitsOf s ++ [c])%list.
Proof.
  induction s as [|d s IH]; [reflexivity|].
  rewrite append_cons. unfold unitsOf in *. simpl. rewrite IH. reflexivity.
Qed.

(** The pieces of a split hold no white space; they are made of the code
    units of the text that are not white space. *)
Lemma split_ws_from_units (P : ascii -> Prop) (cur : string) (gap : bool) (s : string) :
  List.Forall P (unitsOf cur) ->
  List.Forall (fun c => JS.isSpace c = false -> P c) (unitsOf s) ->
  List.Forall (fun w => List.Forall P (unitsOf w)) (JS.split_ws_from cur gap s).
Proof.
  revert cur gap. induction s as [|c s IH]; intros cur gap Hcur Hs; simpl.
  - constructor; [exact Hcur | constructor].
  - inversion Hs as [|? ? Hc Hs']; subst.
    destruct (JS.isSpace c) eqn:E.
    + destruct gap; [apply IH; assumption|].
      constructor; [exact Hcur|]. apply IH; [constructor | assumption].
    + apply IH; [|assumption].
      rewrite unitsOf_append_one. apply List.Forall_app. split; [exact Hcur|].
      constructor; [apply Hc; reflexivity | constructor].
Qed.

Lemma strip_units (s : string) :
  List.Forall (fun c => JS.isSpace c = false -> alphanumeric c = true)
    (unitsOf (strip s)).
Proof.
  induction s as [|c s IH]; simpl; [constructor|].
  destruct (JS.isLower c || JS.isDigit c || JS.isSpace c) eqn:E; [|exact IH].
  constructor; [|exact IH]. intros Hc. unfold alphanumeric.
  rewrite Hc, orb_false_r in E. exact E.
Qed.

Lemma filter_all {A} (p : A -> bool) (xs : list A) :
  (forall x, In x xs -> p x = true) -> List.filter p xs = xs.
Proof.
  induction xs as [|x xs IH]; intros H; simpl; [reflexivity|].
  rewrite (H x) by (left; reflexivity). f_equal. apply IH.
  intros y Hy. apply H. right. exact Hy.
Qed.

Lemma filter_none {A} (p : A -> bool) (xs : list A) :
  (forall x, In x xs -> p x = false) -> List.filter p xs = [].
Proof.
  induction xs as [|x xs IH]; intros H; simpl; [reflexivity|].
  rewrite (H x) by (left; reflexivity). apply IH.
  intros y Hy. apply H. right. exact Hy.
Qed.

(** No drift when every original keyword is kept. *)
Lemma detect_all_kept (original refined : string) :
  (forall kw, In kw (extractKeywords original) -> In kw (extractKeywords refined)) ->
  (Z.of_nat (length (extractKeywords original)) < 2 ^ 32)%Z ->
  detect original refined = mkDriftResult false "".
Proof.
  intros Hall Hlen. unfold detect. rewrite detectByRules_cases. cbv zeta.
  assert (kept original refined = extractKeywords original) as ->.
  { unfold kept. apply filter_all. intros kw Hkw.
    apply bool_decide_eq_true. apply list_elem_of_In. auto. }
  destruct (Nat.eqb_spec (length (extractKeywords original)) 0); [reflexivity|].
  rewrite ratio_below_two_fifths by lia.
  destruct (Z.ltb_spec (5 * Z.of_nat (length (extractKeywords original)))
              (2 * Z.of_nat (length (extractKeywords original)))); [lia | reflexivity].
Qed.

(** The quotient 0/n times 100 rounds to 0. *)
Lemma zero_percent (n : nat) :
  (0 < n)%nat -> (Z.of_nat n < 2 ^ 32)%Z ->
  toString (Math_round (ScoringEngine.num 0 / ScoringEngine.num n * 100)%float) = "0".
Proof.
  intros Hn0 Hn. unfold Math_round.
  rewrite mul_spec, div_spec, !num_spec by lia.
  change (SF64div ?x ?y) with (SFdiv 53 1024 x y).
  destruct (Z.of_nat n) as [|pn|pn] eqn:En; try lia.
  destruct (normalize_pos pn) as (N & b & -> & _); [lia|].
  reflexivity.
Qed.

End Keywords.

(** X8.  Every keyword is at least three code units long, is no stop word, and
    consists of lowercase ASCII letters and digits only. *)
Theorem keywords_shape (text : string) :
  List.Forall
    (fun w =>
       3 <= String.length w /\
       (w ∉ DriftDetector.STOP_WORDS) /\
       List.Forall (fun c => alphanumeric c = true) (unitsOf w))
    (DriftDetector.extractKeywords text).
Proof.
  unfold DriftDetector.extractKeywords. apply List.Forall_forall. intros w Hw.
  apply List.filter_In in Hw as [Hw Hkw].
  unfold DriftDetector.isKeyword in Hkw.
  apply andb_true_iff in Hkw as [Hlen Hstop].
  split; [apply Nat.ltb_lt in Hlen; lia|].
  split; [apply negb_true_iff, bool_decide_eq_false in Hstop; exact Hstop|].
  pose proof (split_ws_from_units (fun c => alphanumeric c = true) "" false
                (DriftDetector.strip (JS.toLowerCase text))
                (List.Forall_nil _) (strip_units _)) as H.
  rewrite List.Forall_forall in H. apply H. exact Hw.
Qed.

(** X9.  A refinement that keeps every keyword of the original is never
    flagged, and so a text never drifts from itself (an array holds fewer
    than 2^32 keywords). *)
Theorem no_drift_when_keywords_kept (original : string) :
  (Z.of_nat (length (DriftDetector.extractKeywords original)) < 2 ^ 32)%Z ->
  (forall refined,
     (forall kw, In kw (DriftDetector.extractKeywords original) ->
                 In kw (DriftDetector.extractKeywords refined)) ->
     DriftDetector.detect original refined = DriftDetector.mkDriftResult false "") /\
  DriftDetector.detect original original = DriftDetector.mkDriftResult false "".
Proof.
  intros Hlen. split.
  - intros refined Hall. apply detect_all_kept; assumption.
  - apply detect_all_kept; [auto | assumption].
Qed.

Lemma no_drift_when_keywords_kept_witness :
  DriftDetector.detect "sort a list quickly" "sort a list quickly" =
    DriftDetector.mkDriftResult false "".
Proof.
  refine (proj2 (no_drift_when_keywords_kept "sort a list quickly" _)).
  vm_compute. reflexivity.
Defined.

(** X10.  When the original has keywords and the refined text keeps none of
    them, drift is detected and the warning reports 0%. *)
Theorem drift_when_no_keyword_kept (original refined : string) :
  DriftDetector.extractKeywords original <> [] ->
  (Z.of_nat (length (DriftDetector.extractKeywords original)) < 2 ^ 32)%Z ->
  (forall kw, In kw (DriftDetector.extractKeywords original) ->
              ~ In kw (DriftDetector.extractKeywords refined)) ->
  DriftDetector.detect original refined =
    DriftDetector.mkDriftResult true
      ("Intent drift detected: only 0% of original keywords are preserved " ++
       "in the refined prompt. The refinement may have altered your original intent.").
Proof.
  intros Hne Hlen Hnone. unfold DriftDetector.detect.
  rewrite detectByRules_cases. cbv zeta.
  assert (kept original refined = []) as ->.
  { unfold kept. apply filter_none. intros kw Hkw.
    apply bool_decide_eq_false. rewrite list_elem_of_In. auto. }
  destruct (Nat.eqb_spec (length (DriftDetector.extractKeywords original)) 0) as [E|E];
    [destruct (DriftDetector.extractKeywords original); [contradiction | discriminate E]|].
  rewrite ratio_below_two_fifths by (simpl; lia).
  destruct (Z.ltb_spec (5 * Z.of_nat (@length string []))
              (2 * Z.of_nat (length (DriftDetector.extractKeywords original))));
    [|simpl in *; lia].
  unfold warningFor. cbn [length]. rewrite zero_percent by lia. reflexivity.
Qed.

Lemma drift_when_no_keyword_kept_witness :
  DriftDetector.driftDetected
    (DriftDetector.detect "sort a list quickly" "French cooking history") = true.
Proof.
  rewrite (drift_when_no_keyword_kept "sort a list quickly" "French cooking history").
  - reflexivity.
  - vm_compute. discriminate.
  - vm_compute. reflexivity.
  - intros kw Hkw Hin. vm_compute in Hkw, Hin.
    repeat (destruct Hkw as [<-|Hkw]; [intuition discriminate|]). exact Hkw.
Defined.

(** ** Trimming *)

Section Trimming.

Definition allSpace (s : string) : bool := forallb JS.isSpace (unitsOf s).

Definition isSpaceOpt (o : option ascii) : bool :=
  match o with Some c => JS.isSpace c | None => false end.

Lemma trimStart_split (s : string) :
  exists pre, s = pre ++ JS.trimStart s /\ allSpace pre = true /\
              isSpaceOpt (JS.head (JS.trimStart s)) = false.
Proof.
  induction s as [|c s (pre & Hs & Hpre & Hhead)]; simpl.
  - exists "". repeat split.
  - destruct (JS.isSpace c) eqn:E.
    + exists (String c pre). rewrite append_cons, <- Hs.
      repeat split; [|exact Hhead]. unfold allSpace, unitsOf in *. simpl.
      rewrite E. exact Hpre.
    + exists "". repeat split. simpl. exact E.
Qed.

Lemma trimEnd_split (s : string) :
  exists post, s = JS.trimEnd s ++ post /\ allSpace post = true /\
               isSpaceOpt (lastChar (JS.trimEnd s)) = false /\
               (JS.trimEnd s <> "" -> JS.head (JS.trimEnd s) = JS.head s).
Proof.
  induction s as [|c s (post & Hs & Hpost & Hlast & Hhead)]; simpl.
  - exists "". repeat split.
  - destruct (JS.trimEnd s) as [|d t] eqn:Ht.
    + rewrite append_nil_l in Hs. subst post.
      destruct (JS.isSpace c) eqn:E.
      * exists (String c s). repeat split; [|intros H; contradiction H; reflexivity].
        unfold allSpace, unitsOf in *. simpl. rewrite E. exact Hpost.
      * exists s. repeat split; [exact Hpost | exact E].
    + exists post. rewrite append_cons, <- Hs. repeat split; [exact Hpost|].
      exact Hlast.
Qed.

Lemma allSpace_append (s t : string) :
  allSpace (s ++ t) = allSpace s && allSpace t.
Proof.
  unfold allSpace, unitsOf. induction s as [|c s IH]; [reflexivity|].
  rewrite append_cons. simpl. rewrite IH. apply andb_assoc.
Qed.

(** [trim] returns the text between the leading and the trailing white
    space. *)
Lemma trim_split (s : string) :
  exists pre post,
    s = pre ++ JS.trim s ++ post /\ allSpace pre = true /\ allSpace post = true /\
    isSpaceOpt (JS.head (JS.trim s)) = false /\
    isSpaceOpt (lastChar (JS.trim s)) = false.
Proof.
  unfold JS.trim.
  destruct (trimStart_split s) as (pre & Hs & Hpre & Hhead).
  destruct (trimEnd_split (JS.trimStart s)) as (post & Ht & Hpost & Hlast & Hh).
  exists pre, post. split; [rewrite <- Ht; exact Hs|].
  repeat split; try assumption.
  destruct (JS.trimEnd (JS.trimStart s)) eqn:E; [reflexivity|].
  rewrite Hh by discriminate. exact Hhead.
Qed.

Lemma trim_empty_iff (s : string) : JS.trim s = "" <-> allSpace s = true.
Proof.
  destruct (trim_split s) as (pre & post & Hs & Hpre & Hpost & Hhead & _).
  split.
  - intros E. rewrite E, append_nil_l in Hs. rewrite Hs, allSpace_append, Hpre, Hpost.
    reflexivity.
  - intros Hall. rewrite Hs, !allSpace_append in Hall.
    apply andb_true_iff in Hall as [_ Hall]. apply andb_true_iff in Hall as [Hall _].
    destruct (JS.trim s) as [|c t]; [reflexivity|].
    simpl in Hhead. unfold allSpace, unitsOf in Hall. simpl in Hall.
    rewrite Hhead in Hall. discriminate.
Qed.

Lemma length_zero_iff (s : string) : (String.length s =? 0)%nat = true <-> s = "".
Proof. destruct s; simpl; split; congruence. Qed.

End Trimming.

(** X11.  POST /api/prompt rejects with status 400 exactly a [text] that is
    absent, not a string, empty, or white space only.  Otherwise it
    analyses the trimmed text: the text of version v0_raw is not empty,
    neither starts nor ends with white space, and is the submitted text
    without its leading and trailing white space; intent, gaps and scores
    are those of that text. *)
Theorem analyzePrompt_validates (uuid : string) (text : option string) :
  (PromptController.analyzePrompt uuid text = PromptController.Fail 400 <->
   match text with None => True | Some t => allSpace t = true end) /\
  (forall body,
     PromptController.analyzePrompt uuid text = PromptController.Json body ->
     exists t pre raw post,
       text = Some t /\ t = pre ++ raw ++ post /\
       allSpace pre = true /\ allSpace post = true /\
       raw <> "" /\
       isSpaceOpt (JS.head raw) = false /\ isSpaceOpt (lastChar raw) = false /\
       PromptController.Analyzed.versions body =
         [PromptController.mkVersion "v0_raw" raw;
          PromptController.mkVersion "v1_structured" raw] /\
       PromptController.Analyzed.intent body = IntentDetector.detect raw /\
       PromptController.Analyzed.gaps body =
         ConstraintDetector.gaps (ConstraintDetector.detect raw) /\
       PromptController.Analyzed.scores body =
         ScoringEngine.score raw (PromptController.Analyzed.gaps body) /\
       PromptController.Analyzed.driftWarning body = "").
Proof.
  unfold PromptController.analyzePrompt. destruct text as [t|].
  2: { split; [tauto | discriminate]. }
  assert (Hblank : negb (JS.truthy t) || (String.length (JS.trim t) =? 0)%nat
                   = allSpace t).
  { destruct (allSpace t) eqn:E.
    - apply trim_empty_iff in E. rewrite E. apply orb_true_r.
    - apply orb_false_iff. split.
      + destruct t; [discriminate E | reflexivity].
      + destruct (String.length (JS.trim t) =? 0)%nat eqn:L; [|reflexivity].
        apply length_zero_iff, trim_empty_iff in L. congruence. }
  rewrite Hblank. destruct (allSpace t) eqn:E.
  - split; [tauto | discriminate].
  - split; [split; [discriminate | discriminate]|].
    intros body [= <-].
    destruct (trim_split t) as (pre & post & Hs & Hpre & Hpost & Hhead & Hlast).
    exists t, pre, (JS.trim t), post. repeat split; try assumption.
    intros Hempty. apply trim_empty_iff in Hempty. congruence.
Qed.

(** X12.  In a reply of POST /api/prompt the low-confidence warning appears
    exactly when the detected intent is general, that is, when no intent
    rule fired on the trimmed text. *)
Theorem analyzePrompt_low_confidence (uuid : string) (text : option string)
    (body : PromptController.Analyzed.Result) :
  PromptController.analyzePrompt uuid text = PromptController.Json body ->
  (In WarningGenerator.LowConfidence (PromptController.Analyzed.warnings body) <->
   IntentDetector.detected (PromptController.Analyzed.intent body) = "general").
Proof.
  unfold PromptController.analyzePrompt. destruct text as [t|]; [|discriminate].
  destruct (negb (JS.truthy t) || (String.length (JS.trim t) =? 0)%nat);
    [discriminate|].
  intros [= <-]. cbn [PromptController.Analyzed.warnings PromptController.Analyzed.intent].
  rewrite generate_confidence.
  pose proof (detect_shape (JS.trim t)) as (_ & _ & Hlow & _). cbv zeta in Hlow.
  symmetry. exact Hlow.
Qed.

Lemma analyzePrompt_low_confidence_witness :
  exists body,
    PromptController.analyzePrompt "id" (Some "  hello there  ") =
      PromptController.Json body /\
    In WarningGenerator.LowConfidence (PromptController.Analyzed.warnings body).
Proof.
  eexists. split; [reflexivity|].
  apply (analyzePrompt_low_confidence "id" (Some "  hello there  ") _ eq_refl).
  reflexivity.
Defined.

(** ** Appending text *)

Section Appending.

Import ConstraintDetector.










End Appending.

(** ** Clarifying and refining *)



(** Outside the stored-prompt path the handlers pass the empty intent, so
    the low-confidence warning cannot appear. *)
Lemma noIntent_not_low scores gaps :
  ~ In WarningGenerator.LowConfidence
      (WarningGenerator.generate scores gaps PromptController.noIntent).
Proof. rewrite generate_confidence. discriminate. Qed.



(** X14.  POST /api/refine without an [originalText] compares the text with
    itself, so it never reports drift: the drift fields are false and
    empty, and the warnings are exactly those generated for the refined
    text, with no drift notice and no low-confidence warning (a text holds
    fewer than 2^32 keywords). *)
Theorem refinePrompt_without_original
    (uuid : string) (promptId : option string) (text : string)
    (originalText : option string) (body : PromptController.Refined.Result) :
  originalText = None \/ originalText = Some "" ->
  (Z.of_nat (length (DriftDetector.extractKeywords text)) < 2 ^ 32)%Z ->
  PromptController.refinePrompt uuid promptId (Some text) originalText =
    PromptController.Json body ->
  text <> "" /\
  PromptController.Refined.refined body = text /\
  PromptController.Refined.driftDetected body = false /\
  PromptController.Refined.driftWarning body = "" /\
  PromptController.Refined.warnings body =
    map PromptController.Generated
      (WarningGenerator.generate (PromptController.Refined.scores body)
         (ConstraintDetector.gaps (ConstraintDetector.detect text))
         PromptController.noIntent) /\
  ~ In (PromptController.Generated WarningGenerator.LowConfidence)
       (PromptController.Refined.warnings body).
Proof.
  intros Horig Hlen. unfold PromptController.refinePrompt.
  destruct text as [|c text]; [discriminate|]. cbn [JS.truthy negb].
  assert (match originalText with
          | Some t => if JS.truthy t then t else String c text
          | None => String c text
          end = String c text) as ->
    by (destruct Horig as [-> | ->]; reflexivity).
  rewrite (detect_all_kept (String c text) (String c text)) by auto.
  cbn [DriftDetector.driftDetected DriftDetector.driftWarning].
  intros [= <-].
  cbn [PromptController.Refined.refined PromptController.Refined.driftDetected
       PromptController.Refined.driftWarning PromptController.Refined.warnings
       PromptController.Refined.scores].
  repeat split; try discriminate.
  intros Hin. apply in_map_iff in Hin as (w & [= ->] & Hw).
  exact (noIntent_not_low _ _ Hw).
Qed.

Lemma refinePrompt_without_original_witness :
  exists body,
    PromptController.refinePrompt "id" None (Some "sort a list quickly") None =
      PromptController.Json body /\
    PromptController.Refined.driftDetected body = false.
Proof.
  eexists. split; [reflexivity|].
  refine (proj1 (proj2 (proj2
    (refinePrompt_without_original "id" None "sort a list quickly" None _ _ _ eq_refl)))).
  - left. reflexivity.
  - vm_compute. reflexivity.
Defined.

Lemma detect_warning_empty_iff (original refined : string) :
  DriftDetector.driftDetected (DriftDetector.detect original refined) = false <->
  DriftDetector.driftWarning (DriftDetector.detect original refined) = "".
Proof.
  unfold DriftDetector.detect. rewrite detectByRules_cases. cbv zeta.
  destruct (_ =? 0)%nat; [|destruct (_ <? _)%float];
    cbn [DriftDetector.driftDetected DriftDetector.driftWarning];
    split; intros H; try reflexivity; try discriminate H.
Qed.

(** X15.  In any reply of POST /api/refine the drift notice is in front of the
    warnings exactly when drift is detected, it then carries the drift
    warning and is the only drift notice, and [driftWarning] is empty
    exactly when no drift is detected. *)
Theorem refinePrompt_drift_notice
    (uuid : string) (promptId text originalText : option string)
    (body : PromptController.Refined.Result) :
  PromptController.refinePrompt uuid promptId text originalText =
    PromptController.Json body ->
  (PromptController.Refined.driftDetected body = true <->
   List.hd_error (PromptController.Refined.warnings body) =
     Some (PromptController.DriftNotice (PromptController.Refined.driftWarning body))) /\
  (PromptController.Refined.driftDetected body = false <->
   PromptController.Refined.driftWarning body = "") /\
  (forall w, In (PromptController.DriftNotice w) (PromptController.Refined.warnings body) ->
             PromptController.Refined.driftDetected body = true /\
             w = PromptController.Refined.driftWarning body) /\
  length (PromptController.Refined.warnings body) <= 7.
Proof.
  unfold PromptController.refinePrompt.
  destruct text as [text|]; [|discriminate].
  destruct (JS.truthy text); [|discriminate]. cbn [negb].
  intros [= <-].
  cbn [PromptController.Refined.driftDetected PromptController.Refined.driftWarning
       PromptController.Refined.warnings].
  set (orig := match originalText with
               | Some t => if JS.truthy t then t else text
               | None => text
               end).
  pose proof (detect_warning_empty_iff orig text) as Hempty.
  set (ws := WarningGenerator.generate _ _ _).
  pose proof (generate_length
                (ScoringEngine.score text
                   (ConstraintDetector.gaps (ConstraintDetector.detect text)))
                (ConstraintDetector.gaps (ConstraintDetector.detect text))
                PromptController.noIntent) as Hlen.
  fold ws in Hlen.
  assert (Hgen : forall w, ~ In (PromptController.DriftNotice w)
                             (map PromptController.Generated ws)).
  { intros w Hin. apply in_map_iff in Hin as (x & Hx & _). discriminate Hx. }
  destruct (DriftDetector.driftDetected (DriftDetector.detect orig text)) eqn:E.
  - split; [split; reflexivity|]. split; [exact Hempty|].
    split; [|cbn [length]; rewrite length_map; lia].
    intros w [[= <-] | Hin]; [split; reflexivity | destruct (Hgen w Hin)].
  - split.
    + split; [discriminate|]. intros Hhd. exfalso.
      destruct ws; [discriminate Hhd | discriminate Hhd].
    + split; [exact Hempty|].
      split; [intros w Hin; destruct (Hgen w Hin) | rewrite length_map; lia].
Qed.

Lemma refinePrompt_drift_notice_witness :
  exists body,
    PromptController.refinePrompt "id" None (Some "French cooking history")
      (Some "sort a list quickly") = PromptController.Json body /\
    PromptController.Refined.driftDetected body = true.
Proof.
  eexists. split; [reflexivity|].
  apply (proj1 (refinePrompt_drift_notice "id" None (Some "French cooking history")
                  (Some "sort a list quickly") _ eq_refl)).
  vm_compute. reflexivity.
Defined.
